(** * dhatless: report filtering and rendering

    A shallow embedding of [main.go]: the Go standard-library string
    functions the program calls, the [Report] data model, the frame
    resolver, the ignore-list filter and the renderer, followed by the
    properties of the specification that hold of them. *)

From Stdlib Require Import ZArith List Bool Ascii String Lia DecimalString.
Import ListNotations.
Local Open Scope string_scope.
Local Open Scope list_scope.
Local Open Scope Z_scope.

(** ** Go runtime: panics and slice indexing *)

(** The only runtime panic the program can raise is Go's bounds error,
    "index out of range [index] with length [length]". *)
Inductive panic : Type :=
| IndexOutOfRange (index : Z) (length : nat).

Inductive res (A : Type) : Type :=
| Ok (a : A)
| Panic (p : panic).
Arguments Ok {A} a.
Arguments Panic {A} p.

Definition res_bind {A B : Type} (m : res A) (k : A -> res B) : res B :=
  match m with
  | Ok a => k a
  | Panic p => Panic p
  end.

Declare Scope res_scope.
Delimit Scope res_scope with res.
Notation "x <- m ;; k" := (res_bind m (fun x => k))
  (at level 61, m at next level, right associativity) : res_scope.

(** [l[i]] on a Go slice: bounds-checked, [i] is a Go [int]. *)
Definition at_index {A : Type} (l : list A) (i : Z) : res A :=
  if (0 <=? i) && (i <? Z.of_nat (List.length l)) then
    match nth_error l (Z.to_nat i) with
    | Some a => Ok a
    | None => Panic (IndexOutOfRange i (List.length l))
    end
  else Panic (IndexOutOfRange i (List.length l)).

(** ** Package [strings] *)

Module Strings.

(** Go strings are byte sequences; [s[m:]] and [s[:m]]. *)
Fixpoint drop (n : nat) (s : string) : string :=
  match n, s with
  | O, _ => s
  | S n', String _ s' => drop n' s'
  | S _, EmptyString => EmptyString
  end.

Fixpoint take (n : nat) (s : string) : string :=
  match n, s with
  | O, _ => EmptyString
  | S n', String c s' => String c (take n' s')
  | S _, EmptyString => EmptyString
  end.

Fixpoint HasPrefix (s prefix : string) {struct prefix} : bool :=
  match prefix, s with
  | EmptyString, _ => true
  | String p prefix', String c s' => Ascii.eqb c p && HasPrefix s' prefix'
  | String _ _, EmptyString => false
  end.

(** [strings.Index]: byte offset of the first occurrence of [substr],
    [None] standing for Go's [-1]. *)
Fixpoint Index (s substr : string) : option nat :=
  if HasPrefix s substr then Some O
  else match s with
       | EmptyString => None
       | String _ s' => option_map S (Index s' substr)
       end.

Definition Contains (s substr : string) : bool :=
  match Index s substr with
  | Some _ => true
  | None => false
  end.

(** [strings.Split] for a non-empty separator (the program passes only
    [": "] and ["\n"]): the loop of [genSplit], which cuts [s] at each
    successive [Index s sep].  Every round consumes at least one byte, so
    [length s] rounds are enough ([genSplit_fuel] below). *)
Fixpoint genSplit (fuel : nat) (s sep : string) : list string :=
  match fuel with
  | O => [s]
  | S fuel' =>
      match Index s sep with
      | None => [s]
      | Some m => take m s :: genSplit fuel' (drop (m + String.length sep) s) sep
      end
  end.

Definition Split (s sep : string) : list string :=
  genSplit (String.length s) s sep.

(** [strings.Trim] with an ASCII cutset: [trimRightASCII] then
    [trimLeftASCII]. *)
Fixpoint inCutset (cutset : string) (c : ascii) : bool :=
  match cutset with
  | EmptyString => false
  | String d cutset' => Ascii.eqb c d || inCutset cutset' c
  end.

Fixpoint TrimLeft (s cutset : string) : string :=
  match s with
  | EmptyString => EmptyString
  | String c s' => if inCutset cutset c then TrimLeft s' cutset else s
  end.

Fixpoint TrimRight (s cutset : string) : string :=
  match s with
  | EmptyString => EmptyString
  | String c s' =>
      match TrimRight s' cutset with
      | EmptyString => if inCutset cutset c then EmptyString
                       else String c EmptyString
      | String d t => String c (String d t)
      end
  end.

Definition Trim (s cutset : string) : string :=
  TrimLeft (TrimRight s cutset) cutset.

End Strings.

(** ** Package [html] *)

Module Html.

Definition dquote : ascii := "034"%char.
Definition squote : ascii := "039"%char.

(** [html.EscapeString]: the five-entry replacer of the Go library. *)
Definition escapeByte (c : ascii) : string :=
  if Ascii.eqb c "&"%char then "&amp;"
  else if Ascii.eqb c squote then "&#39;"
  else if Ascii.eqb c "<"%char then "&lt;"
  else if Ascii.eqb c ">"%char then "&gt;"
  else if Ascii.eqb c dquote then "&#34;"
  else String c EmptyString.

Fixpoint EscapeString (s : string) : string :=
  match s with
  | EmptyString => EmptyString
  | String c s' => escapeByte c ++ EscapeString s'
  end.

End Html.

(** ** Package [fmt] *)

Module Fmt.

(** The verb [%d] on a Go [int]. *)
Definition d (n : Z) : string := NilZero.string_of_int (Z.to_int n).

Definition LF : string := String "010"%char EmptyString.

End Fmt.

(** ** The report model *)

Record ProgramPoint : Type := {
  TotalBytes : Z;
  TotalBlocks : Z;
  TotalLifetimesOfBlocks : Z;
  MaxBytes : Z;
  MaxBlocks : Z;
  BytesAtTgmax : Z;
  BlocksAtTgmax : Z;
  BytesAtTend : Z;
  BlocksAtTend : Z;
  ReadsOfBlocks : Z;
  WritesOfBlocks : Z;
  BlockAccesses : list Z;
  Frames : list Z
}.

Record Report : Type := {
  Version : Z;
  InvocationMode : string;
  StackFrameVerb : string;
  BlockLifetimesRecorded : bool;
  BlockAccessesRecorded : bool;
  ByteUnit : string;
  BytesUnit : string;
  BlocksUnit : string;
  TimeUnit : string;
  MilTimeUnit : string;
  ShortLivedTimeThreshold : Z;
  Cmd : string;
  PID : Z;
  TimeAtEnd : Z;
  TimeAtGlobalMax : Z;
  ProgramPoints : list ProgramPoint;
  FramesTable : list string
}.

(** ** Frame resolver *)

Definition frameSep : string := ": ".

Local Open Scope res_scope.

(** [func (r Report) GetFrame(i int) string] *)
Definition GetFrame (r : Report) (i : Z) : res string :=
  entry <- at_index (FramesTable r) i ;;
  at_index (Strings.Split entry frameSep) 1.

(** The body of the [range] loop of [ProgramPointHasFrame]. *)
Fixpoint hasFrameLoop (r : Report) (frames : list Z) (s : string) : res bool :=
  match frames with
  | [] => Ok false
  | frame :: rest =>
      entry <- at_index (FramesTable r) frame ;;
      sym <- at_index (Strings.Split entry frameSep) 1 ;;
      if Strings.Contains sym s then Ok true
      else hasFrameLoop r rest s
  end.

(** [func (r Report) ProgramPointHasFrame(i int, s string) bool] *)
Definition ProgramPointHasFrame (r : Report) (i : Z) (s : string) : res bool :=
  pp <- at_index (ProgramPoints r) i ;;
  hasFrameLoop r (Frames pp) s.

(** ** Ignore-list filter *)

(** [func shouldIgnore(r Report, frame int, ignoreList []string) bool] *)
Fixpoint shouldIgnore (r : Report) (frame : Z) (ignoreList : list string)
  : res bool :=
  match ignoreList with
  | [] => Ok false
  | s :: rest =>
      hit <- ProgramPointHasFrame r frame s ;;
      if hit then Ok true else shouldIgnore r frame rest
  end.

(** [func parseIgnoreFile(file string) ([]string, error)]; the loop over
    the lines appends to [ignoreList]. *)
Definition trimCutset : string := String " "%char (String "009"%char EmptyString).

Fixpoint ignoreLoop (lines : list string) (ignoreList : list string)
  : list string :=
  match lines with
  | [] => ignoreList
  | line :: rest =>
      match Strings.Trim line trimCutset with
      | EmptyString => ignoreLoop rest ignoreList
      | String c0 _ as line' =>
          if Ascii.eqb c0 "#"%char then ignoreLoop rest ignoreList
          else ignoreLoop rest (ignoreList ++ [line'])
      end
  end.

(** ** Output *)

(** One constructor per print statement of [mainErr]; [text] is what the
    statement writes to standard output. *)
Inductive event : Type :=
| PrintHtmlHeader
| PrintPreOpen
| PrintCommand (cmd : string)
| PrintPID (pid : Z)
| PrintMode (mode : string)
| PrintTEnd (te : Z) (tu : string)
| PrintPreClose
| PrintSummary (allocCount : Z)
| PrintBanner (allocCount : Z)
| PrintStats (tb tbk : Z)
| PrintFramesOpen
| PrintFrame (frame : string)
| PrintDetailsClose
| PrintHtmlFooter.

Definition unlines (ls : list string) : string :=
  String.concat EmptyString (map (fun l => l ++ Fmt.LF)%string ls).

Definition q : string := String Html.dquote EmptyString.

Definition htmlHeader : string :=
  let o := EmptyString in
  unlines [
    o;
    "<!DOCTYPE html>";
    o;
    "<html lang=" ++ q ++ "en" ++ q ++ ">";
    o;
    "<head>";
    o;
    "<meta charset=" ++ q ++ "utf-8" ++ q ++ ">";
    "<meta name=" ++ q ++ "viewport" ++ q ++ " content=" ++ q
      ++ "width=device-width, initial-scale=1.0" ++ q ++ ">";
    o;
    "<style>";
    "body {";
    "font-size: 15px;";
    "}";
    "pre {";
    "overflow-x: auto;";
    "}";
    o;
    "details > summary {";
    "  padding: 2px 6px;";
    "  width: 15em;";
    "  background-color: #ddd;";
    "  border: none;";
    "  box-shadow: 3px 3px 4px black;";
    "  cursor: pointer;";
    "}";
    o;
    "pre {";
    "  border-radius: 0 0 10px 10px;";
    "  background-color: #ddd;";
    "  padding: 2px 6px;";
    "  margin: 0;";
    "  box-shadow: 3px 3px 4px black;";
    "}";
    o;
    "details[open] > summary {";
    "  background-color: #ccf;";
    "}";
    o;
    "button {";
    "  background-color: #ddd;";
    "  font-size: 15px;";
    "  width: 10%;";
    "}";
    o;
    "</style>";
    o;
    "<title>DHAT allocations report</title>";
    o;
    "</head>";
    o;
    "<body>";
    o;
    "<button id=" ++ q ++ "btn-openall" ++ q ++ ">Open All</button>";
    "<button id=" ++ q ++ "btn-closeall" ++ q ++ ">Close All</button>";
    "<hr>";
    o;
    "<script>";
    o;
    "document.getElementById(" ++ q ++ "btn-openall" ++ q
      ++ ").addEventListener(" ++ q ++ "click" ++ q ++ ", function(event) {";
    "  const elements = document.querySelectorAll('details');";
    "  elements.forEach(element => {";
    "    element.open = true;";
    "  });";
    "});";
    o;
    "document.getElementById(" ++ q ++ "btn-closeall" ++ q
      ++ ").addEventListener(" ++ q ++ "click" ++ q ++ ", function(event) {";
    "  const elements = document.querySelectorAll('details');";
    "  elements.forEach(element => {";
    "    element.open = false;";
    "  });";
    "});";
    o;
    "</script>";
    o
  ]%string.

Definition htmlFooter : string :=
  unlines [EmptyString; "</body>"; "</html>"]%string.

Definition text (e : event) : string :=
  (match e with
   | PrintHtmlHeader => htmlHeader
   | PrintPreOpen => "<br><pre>" ++ Fmt.LF
   | PrintCommand cmd => "Command: " ++ cmd ++ Fmt.LF
   | PrintPID pid => "PID: " ++ Fmt.d pid ++ Fmt.LF
   | PrintMode mode => "Mode: " ++ mode ++ Fmt.LF
   | PrintTEnd te tu => "t-end: " ++ Fmt.d te ++ " " ++ tu ++ Fmt.LF
   | PrintPreClose => "</pre><br><hr><br>" ++ Fmt.LF
   | PrintSummary allocCount =>
       "<details><summary>Allocation #" ++ Fmt.d allocCount
         ++ "</summary><br><p>" ++ Fmt.LF
   | PrintBanner allocCount =>
       Fmt.LF ++ "==== Allocation #" ++ Fmt.d allocCount ++ " ====" ++ Fmt.LF
   | PrintStats tb tbk =>
       Fmt.d tb ++ " bytes in " ++ Fmt.d tbk ++ " blocks" ++ Fmt.LF
   | PrintFramesOpen => "</p><pre>" ++ Fmt.LF
   | PrintFrame frame => frame ++ Fmt.LF
   | PrintDetailsClose => "</pre></details><br>" ++ Fmt.LF
   | PrintHtmlFooter => htmlFooter
   end)%string.

(** What standard output holds after a sequence of print statements. *)
Definition stdout (es : list event) : string :=
  String.concat EmptyString (map text es).

(** A run either completes, returns a Go [error], or dies on a panic;
    what was printed before stays printed. *)
Inductive failure : Type :=
| Error (msg : string)
| Panicked (p : panic).

Inductive outcome (A : Type) : Type :=
| Done (a : A)
| Failed (f : failure).
Arguments Done {A} a.
Arguments Failed {A} f.

Definition IO (A : Type) : Type := (list event * outcome A)%type.

Definition ret {A : Type} (a : A) : IO A := ([], Done a).

Definition bind {A B : Type} (m : IO A) (k : A -> IO B) : IO B :=
  match m with
  | (out, Done a) => let (out', o) := k a in (out ++ out', o)
  | (out, Failed f) => (out, Failed f)
  end.

Definition print (e : event) : IO unit := ([e], Done tt).

Definition fail {A : Type} (f : failure) : IO A := ([], Failed f).

Definition lift {A : Type} (m : res A) : IO A :=
  match m with
  | Ok a => ret a
  | Panic p => fail (Panicked p)
  end.

Definition when (b : bool) (m : IO unit) : IO unit :=
  if b then m else ret tt.

Declare Scope io_scope.
Delimit Scope io_scope with io.
Notation "x <- m ;; k" := (bind m (fun x => k))
  (at level 61, m at next level, right associativity) : io_scope.
Notation "m ;; k" := (bind m (fun _ => k))
  (at level 61, right associativity) : io_scope.

Local Open Scope io_scope.

(** ** Renderer *)

(** [for j := len(pp.Frames) - 1; j >= 0; j--]; [n] is [j + 1]. *)
Fixpoint framesLoop (r : Report) (outputHtml : bool) (pp : ProgramPoint)
  (n : nat) : IO unit :=
  match n with
  | O => ret tt
  | S j =>
      idx <- lift (at_index (Frames pp) (Z.of_nat j)) ;;
      frame <- lift (GetFrame r idx) ;;
      print (PrintFrame (if outputHtml then Html.EscapeString frame
                         else frame)) ;;
      framesLoop r outputHtml pp j
  end.

(** One round of [for i, pp := range report.ProgramPoints]; the result
    is the value of [allocCount] after the round. *)
Definition siteBody (r : Report) (ignoreList : list string)
  (outputHtml : bool) (i : nat) (pp : ProgramPoint) (allocCount : Z) : IO Z :=
  skip <- lift (shouldIgnore r (Z.of_nat i) ignoreList) ;;
  if skip then ret allocCount
  else
    print (if outputHtml then PrintSummary allocCount
           else PrintBanner allocCount) ;;
    print (PrintStats (TotalBytes pp) (TotalBlocks pp)) ;;
    let allocCount := allocCount + 1 in
    when outputHtml (print PrintFramesOpen) ;;
    framesLoop r outputHtml pp (List.length (Frames pp)) ;;
    when outputHtml (print PrintDetailsClose) ;;
    ret allocCount.

Fixpoint sitesLoop (r : Report) (ignoreList : list string)
  (outputHtml : bool) (i : nat) (pps : list ProgramPoint) (allocCount : Z)
  : IO Z :=
  match pps with
  | [] => ret allocCount
  | pp :: rest =>
      allocCount' <- siteBody r ignoreList outputHtml i pp allocCount ;;
      sitesLoop r ignoreList outputHtml (S i) rest allocCount'
  end.

Definition dhatVersion : Z := 2.

Definition versionError (found : Z) : string :=
  ("DHAT report version " ++ Fmt.d found
     ++ " is not supported, only version " ++ Fmt.d dhatVersion
     ++ " is supported")%string.

(** Lines 103-169 of [mainErr]: the version check and the rendering. *)
Definition render (report : Report) (ignoreList : list string)
  (outputHtml : bool) : IO unit :=
  if negb (Version report =? dhatVersion) then
    fail (Error (versionError (Version report)))
  else
    when outputHtml (print PrintHtmlHeader) ;;
    when outputHtml (print PrintPreOpen) ;;
    print (PrintCommand (Cmd report)) ;;
    print (PrintPID (PID report)) ;;
    print (PrintMode (InvocationMode report)) ;;
    print (PrintTEnd (TimeAtEnd report) (TimeUnit report)) ;;
    when outputHtml (print PrintPreClose) ;;
    _ <- sitesLoop report ignoreList outputHtml 0 (ProgramPoints report) 1 ;;
    when outputHtml (print PrintHtmlFooter) ;;
    ret tt.

(** The environment of a run: [os.ReadFile] on the ignore file and the
    JSON decoding of the report file, each giving an [error] message or
    its result. *)
Section Run.

Variable ReadFile : string -> string + string.
Variable decodeReport : string -> string + Report.

Definition parseIgnoreFile (file : string) : string + list string :=
  match file with
  | EmptyString => inr []
  | _ =>
      match ReadFile file with
      | inl err => inl err
      | inr content => inr (ignoreLoop (Strings.Split content Fmt.LF) [])
      end
  end.

Definition parseReport (file : string) : string + Report :=
  decodeReport file.

(** [mainErr] once the flags are parsed, with [-version] and the
    profiling flags off and exactly one positional argument. *)
Definition mainErr (ignoreFile : string) (outputHtml : bool)
  (dhatFile : string) : IO unit :=
  match parseIgnoreFile ignoreFile with
  | inl err => fail (Error err)
  | inr ignoreList =>
      match parseReport dhatFile with
      | inl err => fail (Error err)
      | inr report => render report ignoreList outputHtml
      end
  end.

End Run.

(** ** Vocabulary of the specification *)

(** "The substring following the first separator": everything after the
    first occurrence of [frameSep], when there is one. *)
Definition afterFirstSep (entry : string) : option string :=
  match Strings.Index entry frameSep with
  | Some m => Some (Strings.drop (m + String.length frameSep) entry)
  | None => None
  end.

(** The text between the first occurrence of the separator and the next
    one, or the end of the entry when there is no next one. *)
Definition betweenSeps (entry : string) : option string :=
  match afterFirstSep entry with
  | Some rest =>
      match Strings.Index rest frameSep with
      | Some m => Some (Strings.take m rest)
      | None => Some rest
      end
  | None => None
  end.

(** The invariants of the data model: a frame index is within the frame
    table and its entry contains the separator. *)
Definition frameOk (r : Report) (f : Z) : bool :=
  (0 <=? f) &&
  match nth_error (FramesTable r) (Z.to_nat f) with
  | Some entry => Strings.Contains entry frameSep
  | None => false
  end.

Definition siteOk (r : Report) (pp : ProgramPoint) : bool :=
  forallb (frameOk r) (Frames pp).

Definition validReport (r : Report) : bool :=
  forallb (siteOk r) (ProgramPoints r).

(** "Some keyword is contained in some resolved frame of the site". *)
Definition keywordInSite (r : Report) (pp : ProgramPoint)
  (keywords : list string) : Prop :=
  exists k f sym,
    In k keywords /\ In f (Frames pp) /\
    GetFrame r f = Ok sym /\ Strings.Contains sym k = true.

(** The tests of a call of [shouldIgnore], in the order it makes them:
    keywords in list order, and for each keyword the frames in list
    order. *)
Definition tests (keywords : list string) (frames : list Z)
  : list (string * Z) :=
  flat_map (fun k => map (fun f => (k, f)) frames) keywords.

Definition resolves (r : Report) (f : Z) : Prop :=
  exists sym, GetFrame r f = Ok sym.

Definition mkSite (tb tbk : Z) (fs : list Z) : ProgramPoint :=
  {| TotalBytes := tb; TotalBlocks := tbk; TotalLifetimesOfBlocks := 0;
     MaxBytes := 0; MaxBlocks := 0; BytesAtTgmax := 0; BlocksAtTgmax := 0;
     BytesAtTend := 0; BlocksAtTend := 0; ReadsOfBlocks := 0;
     WritesOfBlocks := 0; BlockAccesses := []; Frames := fs |}.

Definition mkReport (version : Z) (pps : list ProgramPoint)
  (ftbl : list string) : Report :=
  {| Version := version; InvocationMode := "Heap"; StackFrameVerb := "at";
     BlockLifetimesRecorded := false; BlockAccessesRecorded := false;
     ByteUnit := "byte"; BytesUnit := "bytes"; BlocksUnit := "blocks";
     TimeUnit := "instrs"; MilTimeUnit := "Minstr";
     ShortLivedTimeThreshold := 0; Cmd := "./prog"; PID := 4242;
     TimeAtEnd := 1000; TimeAtGlobalMax := 0;
     ProgramPoints := pps; FramesTable := ftbl |}.

(** The symbol of a frame index, for the indices that resolve. *)
Definition symbol (r : Report) (f : Z) : string :=
  match GetFrame r f with
  | Ok sym => sym
  | Panic _ => EmptyString
  end.

(** The filter predicate on a site whose frames all resolve. *)
Definition siteMatches (r : Report) (pp : ProgramPoint)
  (keywords : list string) : bool :=
  existsb (fun k => existsb (fun f => Strings.Contains (symbol r f) k)
                            (Frames pp))
          keywords.

(** Running a sequence of tests one after the other, stopping at the
    first hit. *)
Fixpoint firstHit (r : Report) (ts : list (string * Z)) : res bool :=
  match ts with
  | [] => Ok false
  | (k, f) :: rest =>
      res_bind (GetFrame r f) (fun sym =>
        if Strings.Contains sym k then Ok true else firstHit r rest)
  end.

(** Some test hits and every test made before it resolves its frame. *)
Definition hitReached (r : Report) (ts : list (string * Z)) : Prop :=
  exists pre k f post sym,
    ts = pre ++ (k, f) :: post /\
    Forall (fun t => resolves r (snd t)) pre /\
    GetFrame r f = Ok sym /\ Strings.Contains sym k = true.

(** Sample reports. *)
Definition reportExample : Report :=
  mkReport 2 [mkSite 100 1 [0; 1]] ["at: main"; "at: alloc"].

Definition reportTwoSeps : Report :=
  mkReport 2 [mkSite 100 1 [0]] ["at: foo: bar"].

Definition reportBadIndex : Report :=
  mkReport 2 [mkSite 100 1 [7; 0]] ["at: foo"].

Definition reportNoSep : Report :=
  mkReport 2 [mkSite 100 1 [0]] ["nosep"].

(** "Trimmed of leading and trailing space and tab": [t] is [line]
    without a leading and a trailing run of cutset bytes, and [t]
    neither starts nor ends with one. *)
Fixpoint allInCutset (cutset s : string) : bool :=
  match s with
  | EmptyString => true
  | String c s' => Strings.inCutset cutset c && allInCutset cutset s'
  end.

Definition firstByte (s : string) : option ascii :=
  match s with
  | EmptyString => None
  | String c _ => Some c
  end.

Fixpoint lastByte (s : string) : option ascii :=
  match s with
  | EmptyString => None
  | String c EmptyString => Some c
  | String _ s' => lastByte s'
  end.

Definition outsideCutset (cutset : string) (b : option ascii) : bool :=
  match b with
  | Some c => negb (Strings.inCutset cutset c)
  | None => true
  end.

Definition trimmedOf (cutset line t : string) : Prop :=
  exists pre post,
    line = (pre ++ t ++ post)%string /\
    allInCutset cutset pre = true /\ allInCutset cutset post = true /\
    outsideCutset cutset (firstByte t) = true /\
    outsideCutset cutset (lastByte t) = true.

(** A trimmed line is kept as a keyword unless it is empty or a
    comment. *)
Definition keepLine (t : string) : bool :=
  match t with
  | EmptyString => false
  | String c _ => negb (Ascii.eqb c "#"%char)
  end.

Definition keywordsOf (content : string) : list string :=
  filter keepLine
    (map (fun line => Strings.Trim line trimCutset)
         (Strings.Split content Fmt.LF)).

(** The file of the specification's example, with and without a final
    newline. *)
Definition fourLines : list string :=
  ["  foo  "; "#comment"; EmptyString; "bar"]%string.

(** How a frame symbol is written in each mode. *)
Definition frameLine (outputHtml : bool) (sym : string) : event :=
  PrintFrame (if outputHtml then Html.EscapeString sym else sym).

(** What a rendered site looks like under display counter [n]. *)
Definition siteBlock (r : Report) (outputHtml : bool) (n : Z)
  (pp : ProgramPoint) : list event :=
  [if outputHtml then PrintSummary n else PrintBanner n;
   PrintStats (TotalBytes pp) (TotalBlocks pp)]
  ++ (if outputHtml then [PrintFramesOpen] else [])
  ++ map (frameLine outputHtml) (rev (map (symbol r) (Frames pp)))
  ++ (if outputHtml then [PrintDetailsClose] else []).

(** Numbering a list [c], [c + 1], ... *)
Fixpoint numberFrom {A : Type} (c : Z) (l : list A) : list (Z * A) :=
  match l with
  | [] => []
  | x :: rest => (c, x) :: numberFrom (c + 1) rest
  end.

Definition preamble (r : Report) (outputHtml : bool) : list event :=
  (if outputHtml then [PrintHtmlHeader; PrintPreOpen] else [])
  ++ [PrintCommand (Cmd r); PrintPID (PID r);
      PrintMode (InvocationMode r);
      PrintTEnd (TimeAtEnd r) (TimeUnit r)]
  ++ (if outputHtml then [PrintPreClose] else []).

Definition closing (outputHtml : bool) : list event :=
  if outputHtml then [PrintHtmlFooter] else [].

(** The sites [shouldIgnore] does not flag, in input order. *)
Definition ignoredAt (r : Report) (keywords : list string) (i : nat) : bool :=
  match shouldIgnore r (Z.of_nat i) keywords with
  | Ok hit => hit
  | Panic _ => false
  end.

Fixpoint keptFrom (r : Report) (keywords : list string) (i : nat)
  (pps : list ProgramPoint) : list ProgramPoint :=
  match pps with
  | [] => []
  | pp :: rest =>
      if ignoredAt r keywords i then keptFrom r keywords (S i) rest
      else pp :: keptFrom r keywords (S i) rest
  end.

Definition kept (r : Report) (keywords : list string) : list ProgramPoint :=
  keptFrom r keywords 0 (ProgramPoints r).

(** Reading the output back: the display counters and the frame lines
    that were printed. *)
Definition counters (out : list event) : list Z :=
  flat_map (fun e => match e with
                     | PrintSummary n | PrintBanner n => [n]
                     | _ => []
                     end) out.

Definition framesOf (out : list event) : list string :=
  flat_map (fun e => match e with
                     | PrintFrame frame => [frame]
                     | _ => []
                     end) out.

(** Order-preserving removal of elements. *)
Inductive subseq {A : Type} : list A -> list A -> Prop :=
| subseq_nil : subseq [] []
| subseq_skip x l l' : subseq l l' -> subseq l (x :: l')
| subseq_keep x l l' : subseq l l' -> subseq (x :: l) (x :: l').

(** The two error kinds the specification names for a failed frame
    resolution. *)
Inductive errorKind : Type := IndexError | FormatError.

Definition hasByte (c : ascii) (s : string) : bool :=
  Strings.inCutset s c.

Definition htmlSpecial (c : ascii) : bool :=
  Ascii.eqb c "&"%char || Ascii.eqb c Html.squote || Ascii.eqb c "<"%char
  || Ascii.eqb c ">"%char || Ascii.eqb c Html.dquote.


Definition reportThreeSites : Report :=
  mkReport 2 [mkSite 100 1 [0; 1]; mkSite 64 2 [2; 1]; mkSite 8 1 [0]]
           ["0x1: main (main.c:3)"; "0x2: alloc (a.c:9)"; "0x3: a<b>c"].

Definition reportVersion1 : Report :=
  mkReport 1 [mkSite 100 1 [0; 1]] ["at: main"; "at: alloc"].


(** How the frame symbol is written in each mode. *)
Definition written (outputHtml : bool) (sym : string) : string :=
  if outputHtml then Html.EscapeString sym else sym.

Definition reportBroken : Report :=
  mkReport 2 [mkSite 100 1 [0]; mkSite 64 2 [1; 0]; mkSite 8 1 [0]]
           ["at: main"; "nosep"].

(** ** The rest of [main.go] *)

(** The runs that complete: every site is either ignored or has all its
    frames resolve. *)
Definition siteFine (r : Report) (keywords : list string) (i : nat)
  (pp : ProgramPoint) : bool :=
  match shouldIgnore r (Z.of_nat i) keywords with
  | Ok true => true
  | Ok false => siteOk r pp
  | Panic _ => false
  end.

Fixpoint fineFrom (r : Report) (keywords : list string) (i : nat)
  (pps : list ProgramPoint) : bool :=
  match pps with
  | [] => true
  | pp :: rest => siteFine r keywords i pp && fineFrom r keywords (S i) rest
  end.

(** The print statements guarded by [*outputHtml]. *)
Definition htmlOnly (e : event) : bool :=
  match e with
  | PrintHtmlHeader | PrintPreOpen | PrintPreClose | PrintSummary _
  | PrintFramesOpen | PrintDetailsClose | PrintHtmlFooter => true
  | PrintCommand _ | PrintPID _ | PrintMode _ | PrintTEnd _ _
  | PrintBanner _ | PrintStats _ _ | PrintFrame _ => false
  end.

Definition reportLazy : Report :=
  mkReport 2 [mkSite 100 1 [0; 7]; mkSite 8 1 [1]]
           ["at: alloc"; "at: main"; "nosep"].

(** [func version()], given the build information of the binary
    ([debug.ReadBuildInfo] succeeded); the result is the lines it
    prints. *)
Module Build.

Record Setting : Type := { Key : string; Value : string }.

Record Info : Type := {
  GoVersion : string;
  MainVersion : string;
  Settings : list Setting
}.

(** The closure [g]. *)
Fixpoint g (settings : list Setting) (k : string) : string :=
  match settings with
  | [] => EmptyString
  | v :: rest => if String.eqb (Key v) k then Value v else g rest k
  end.

(** [fmt.Println(label, value)]. *)
Definition println2 (label value : string) : string :=
  (label ++ " " ++ value ++ Fmt.LF)%string.

Definition optional (bi : Info) (label k : string) : list string :=
  match g (Settings bi) k with
  | EmptyString => []
  | String _ _ => [println2 label (g (Settings bi) k)]
  end.

Definition version (bi : Info) : list string :=
  [println2 "go     " (GoVersion bi); println2 "main   " (MainVersion bi)]
  ++ optional bi "commit " "vcs.revision"
  ++ optional bi "time   " "vcs.time"
  ++ optional bi "dirty  " "vcs.modified".

End Build.

(** What [fset.Parse(args)] gives: the help request, another error, or
    the flag values and the positional arguments. *)
Inductive flagParse : Type :=
| FlagHelp
| FlagError (err : string)
| FlagOk (ignoreFile : string)
         (outputHtml printVersion cpuProfile memProfile : bool)
         (args : list string).

(** How the process ends. *)
Inductive exit : Type :=
| Exit0
| Exit1 (stderrLine : string)
| Crash (p : panic).

Section Main.

Variable ReadFile : string -> string + string.
Variable decodeReport : string -> string + Report.
Variable buildInfo : Build.Info.
(** The error of [os.Create] on the CPU profile file, if any. *)
Variable createCpuProfile : option string.

(** The whole of [mainErr]: standard output and the returned error.
    What goes to standard error (the usage text) and to the profile
    files is left out; neither changes the two. *)
Definition mainErrParsed (parsed : flagParse) : string * outcome unit :=
  match parsed with
  | FlagHelp => (EmptyString, Done tt)
  | FlagError err => (EmptyString, Failed (Error err))
  | FlagOk ignoreFile outputHtml printVersion cpuProfile memProfile args =>
      if printVersion then
        (String.concat EmptyString (Build.version buildInfo), Done tt)
      else
        match args with
        | [dhatFile] =>
            match (if cpuProfile then createCpuProfile else None) with
            | Some err => (EmptyString, Failed (Error err))
            | None =>
                let (out, o) :=
                  mainErr ReadFile decodeReport ignoreFile outputHtml dhatFile
                in (stdout out, o)
            end
        | _ => (EmptyString, Failed (Error "need DHAT file"))
        end
  end.

(** [func main()]. *)
Definition main (parsed : flagParse) : exit :=
  match snd (mainErrParsed parsed) with
  | Done _ => Exit0
  | Failed (Error msg) => Exit1 ("error: " ++ msg ++ Fmt.LF)%string
  | Failed (Panicked p) => Crash p
  end.

End Main.

(** An environment with a raw and a clean ignore file. *)
Definition twoIgnoreFiles (file : string) : string + string :=
  if String.eqb file "ignore.txt"
  then inr (String.concat Fmt.LF fourLines)
  else inr (String.concat Fmt.LF ["foo"; "bar"]%string).

(** Comparing the two output modes: an HTML trace without its markup
    (the print statements guarded by [*outputHtml] dropped, the summary
    read as the banner of text mode), and a text trace with its frame
    lines escaped. *)
Definition stripMarkup (out : list event) : list event :=
  flat_map (fun e => match e with
                     | PrintHtmlHeader | PrintPreOpen | PrintPreClose
                     | PrintFramesOpen | PrintDetailsClose
                     | PrintHtmlFooter => []
                     | PrintSummary n => [PrintBanner n]
                     | PrintCommand _ | PrintPID _ | PrintMode _
                     | PrintTEnd _ _ | PrintBanner _ | PrintStats _ _
                     | PrintFrame _ => [e]
                     end) out.

Definition escapeFrames (out : list event) : list event :=
  map (fun e => match e with
                | PrintFrame frame => PrintFrame (Html.EscapeString frame)
                | _ => e
                end) out.

(** * Properties *)

(** ** Slices *)

Lemma at_index_Ok {A : Type} (l : list A) (i : Z) (a : A) :
  at_index l i = Ok a <-> 0 <= i /\ nth_error l (Z.to_nat i) = Some a.
Proof.
  unfold at_index.
  destruct (0 <=? i) eqn:Hlo; destruct (i <? Z.of_nat (List.length l)) eqn:Hhi;
    simpl.
  - apply Z.leb_le in Hlo.
    destruct (nth_error l (Z.to_nat i)) eqn:Hn.
    + split; [intros [= ->]; auto | intros [_ [= ->]]; reflexivity].
    + split; [discriminate | intros [_ H]; discriminate].
  - apply Z.ltb_ge in Hhi. apply Z.leb_le in Hlo.
    split; [discriminate |].
    intros [_ Hn]. exfalso.
    assert (Hlt : (Z.to_nat i < List.length l)%nat)
      by (apply nth_error_Some; congruence).
    lia.
  - apply Z.leb_gt in Hlo. split; [discriminate | lia].
  - apply Z.leb_gt in Hlo. split; [discriminate | lia].
Qed.

Lemma at_index_Panic {A : Type} (l : list A) (i : Z) (p : panic) :
  at_index l i = Panic p <->
  p = IndexOutOfRange i (List.length l) /\
  (i < 0 \/ Z.of_nat (List.length l) <= i).
Proof.
  unfold at_index.
  destruct (0 <=? i) eqn:Hlo; destruct (i <? Z.of_nat (List.length l)) eqn:Hhi;
    simpl.
  - apply Z.leb_le in Hlo. apply Z.ltb_lt in Hhi.
    destruct (nth_error l (Z.to_nat i)) eqn:Hn.
    + split; [discriminate | lia].
    + apply nth_error_None in Hn. lia.
  - apply Z.ltb_ge in Hhi. split; [intros [= <-]; auto | intros [-> _]; auto].
  - apply Z.leb_gt in Hlo. split; [intros [= <-]; auto | intros [-> _]; auto].
  - apply Z.leb_gt in Hlo. split; [intros [= <-]; auto | intros [-> _]; auto].
Qed.

Lemma at_index_of_nat {A : Type} (l : list A) (n : nat) (a : A) :
  nth_error l n = Some a -> at_index l (Z.of_nat n) = Ok a.
Proof.
  intros H. apply at_index_Ok. rewrite Nat2Z.id. split; [lia | exact H].
Qed.

(** ** Strings *)

Module StringFacts.
Import Strings.

Lemma append_assoc (a b c : string) :
  ((a ++ b) ++ c)%string = (a ++ (b ++ c))%string.
Proof. induction a; simpl; congruence. Qed.

Lemma length_append (a b : string) :
  String.length (a ++ b) = (String.length a + String.length b)%nat.
Proof. induction a; simpl; congruence. Qed.

Lemma drop_append (a b : string) : drop (String.length a) (a ++ b) = b.
Proof. induction a; simpl; congruence. Qed.

Lemma length_drop (n : nat) (s : string) :
  String.length (drop n s) = (String.length s - n)%nat.
Proof.
  revert s; induction n as [|n IH]; intros [|c s]; simpl; auto.
Qed.

Lemma HasPrefix_iff (s p : string) :
  HasPrefix s p = true <-> exists t, s = (p ++ t)%string.
Proof.
  revert s; induction p as [|c p IH]; intros s; simpl.
  - split; [intros _; now exists s | intros _; reflexivity].
  - destruct s as [|d s].
    + split; [discriminate | intros [t Ht]; discriminate].
    + rewrite andb_true_iff, Ascii.eqb_eq, IH. split.
      * intros [-> [t ->]]. now exists t.
      * intros [t [= -> ->]]. split; [reflexivity | now exists t].
Qed.

Lemma HasPrefix_drop (s p : string) :
  HasPrefix s p = true -> s = (p ++ drop (String.length p) s)%string.
Proof.
  intros H. apply HasPrefix_iff in H as [t ->]. now rewrite drop_append.
Qed.

(** [Index] finds an occurrence ... *)
Lemma Index_Some (s p : string) (m : nat) :
  Index s p = Some m ->
  s = (take m s ++ p ++ drop (m + String.length p) s)%string /\
  String.length (take m s) = m.
Proof.
  revert m; induction s as [|c s IH]; intros m; simpl.
  - destruct (HasPrefix EmptyString p) eqn:Hp; [|discriminate].
    intros [= <-]. split; [|reflexivity].
    exact (HasPrefix_drop _ _ Hp).
  - destruct (HasPrefix (String c s) p) eqn:Hp.
    + intros [= <-]. split; [|reflexivity].
      exact (HasPrefix_drop _ _ Hp).
    + destruct (Index s p) as [k|] eqn:Hk; [|discriminate].
      simpl. intros [= <-]. destruct (IH k eq_refl) as (H1 & H2).
      simpl. rewrite <- H1, H2. auto.
Qed.

(** ... and the first one: no occurrence starts before it. *)
Lemma Index_first (s p : string) (m k : nat) :
  Index s p = Some m -> (k < m)%nat -> HasPrefix (drop k s) p = false.
Proof.
  revert m k; induction s as [|c s IH]; intros m k; simpl.
  - destruct (HasPrefix EmptyString p); [intros [= <-]; lia | discriminate].
  - destruct (HasPrefix (String c s) p) eqn:Hp; [intros [= <-]; lia|].
    destruct (Index s p) as [j|] eqn:Hj; [|discriminate].
    simpl. intros [= <-] Hk. destruct k as [|k]; simpl; [exact Hp|].
    apply (IH j); [reflexivity | lia].
Qed.

Lemma Index_None (s p : string) :
  Index s p = None -> forall pre post, s <> (pre ++ p ++ post)%string.
Proof.
  induction s as [|c s IH]; simpl.
  - destruct (HasPrefix EmptyString p) eqn:Hp; [discriminate|].
    intros _ pre post E. destruct pre; simpl in E.
    + assert (HasPrefix EmptyString p = true)
        by (apply HasPrefix_iff; eauto). congruence.
    + discriminate.
  - destruct (HasPrefix (String c s) p) eqn:Hp; [discriminate|].
    destruct (Index s p) eqn:Hi; [discriminate|].
    intros _ pre post E. destruct pre as [|d pre]; simpl in E.
    + assert (HasPrefix (String c s) p = true)
        by (apply HasPrefix_iff; eauto). congruence.
    + injection E as -> ->. now apply (IH eq_refl pre post).
Qed.

(** [strings.Contains] is the unanchored, byte-exact substring test. *)
Lemma Contains_iff (s p : string) :
  Contains s p = true <-> exists pre post, s = (pre ++ p ++ post)%string.
Proof.
  unfold Contains. destruct (Index s p) as [m|] eqn:Hi.
  - split; [intros _ | reflexivity].
    destruct (Index_Some _ _ _ Hi) as (H & _). eauto.
  - split; [discriminate|]. intros (pre & post & E).
    exfalso. exact (Index_None _ _ Hi _ _ E).
Qed.

Lemma Index_bound (s p : string) (m : nat) :
  Index s p = Some m -> (m + String.length p <= String.length s)%nat.
Proof.
  intros H. destruct (Index_Some _ _ _ H) as (E & L).
  rewrite E, !length_append, L. lia.
Qed.

(** The fuel of [genSplit] never runs out. *)
Lemma genSplit_fuel (sep : string) :
  sep <> EmptyString ->
  forall fuel s, (String.length s <= fuel)%nat ->
    genSplit fuel s sep = genSplit (String.length s) s sep.
Proof.
  intros Hsep.
  assert (Hpos : (0 < String.length sep)%nat)
    by (destruct sep; [congruence | simpl; lia]).
  assert (Hempty : Index EmptyString sep = None)
    by (destruct sep; [congruence | reflexivity]).
  assert (H : forall fuel fuel' s, (String.length s <= fuel)%nat ->
            (String.length s <= fuel')%nat ->
            genSplit fuel s sep = genSplit fuel' s sep).
  { induction fuel as [|fuel IH]; intros fuel' s H1 H2.
    - destruct s; [|simpl in H1; lia].
      destruct fuel'; cbn [genSplit]; [reflexivity | now rewrite Hempty].
    - destruct fuel' as [|fuel'].
      + destruct s; [|simpl in H2; lia]. cbn [genSplit]. now rewrite Hempty.
      + cbn [genSplit]. destruct (Index s sep) as [m|] eqn:Hi; [|reflexivity].
        f_equal. pose proof (Index_bound _ _ _ Hi).
        apply IH; rewrite length_drop; lia. }
  intros fuel s Hle. apply H; [exact Hle | lia].
Qed.

(** The loop of [strings.Split], unfolded once. *)
Lemma Split_unfold (s sep : string) :
  sep <> EmptyString ->
  Split s sep =
  match Index s sep with
  | Some m => take m s :: Split (drop (m + String.length sep) s) sep
  | None => [s]
  end.
Proof.
  intros Hsep. unfold Split.
  destruct (Index s sep) as [m|] eqn:Hi.
  - pose proof (Index_bound _ _ _ Hi) as Hb.
    assert (Hpos : (0 < String.length sep)%nat)
      by (destruct sep; [congruence | simpl; lia]).
    destruct (String.length s) as [|n] eqn:Hl; [lia|].
    cbn [genSplit]. rewrite Hi. f_equal.
    apply genSplit_fuel; [exact Hsep|]. rewrite length_drop. lia.
  - destruct (String.length s); cbn [genSplit]; [reflexivity | now rewrite Hi].
Qed.

End StringFacts.

(** ** Frame resolver *)

Import Strings StringFacts.

Lemma frameSep_nonempty : frameSep <> EmptyString.
Proof. discriminate. Qed.

(** What [strings.Split(entry, ": ")[1]] evaluates to. *)
Lemma Split_second (entry : string) :
  at_index (Split entry frameSep) 1 =
  match betweenSeps entry with
  | Some sym => Ok sym
  | None => Panic (IndexOutOfRange 1 1)
  end.
Proof.
  unfold betweenSeps, afterFirstSep.
  rewrite (Split_unfold entry _ frameSep_nonempty).
  destruct (Index entry frameSep) as [m|]; [|reflexivity].
  rewrite (Split_unfold (drop _ entry) _ frameSep_nonempty).
  destruct (Index (drop _ entry) frameSep) as [m'|];
    apply at_index_Ok; split; try lia; reflexivity.
Qed.

Lemma GetFrame_entry (r : Report) (i : Z) (entry : string) :
  at_index (FramesTable r) i = Ok entry ->
  GetFrame r i = at_index (Split entry frameSep) 1.
Proof. intros H. unfold GetFrame. now rewrite H. Qed.

Lemma betweenSeps_Some_iff (entry : string) :
  (exists sym, betweenSeps entry = Some sym) <->
  Contains entry frameSep = true.
Proof.
  unfold betweenSeps, afterFirstSep, Contains.
  destruct (Index entry frameSep) as [m|].
  - split; [reflexivity | intros _].
    destruct (Index (drop _ entry) frameSep); eauto.
  - split; [intros [sym H]|]; discriminate.
Qed.

(** The invariants of the data model are exactly what makes a frame
    resolve. *)
Lemma frameOk_resolves (r : Report) (f : Z) :
  frameOk r f = true <-> resolves r f.
Proof.
  unfold frameOk, resolves. rewrite andb_true_iff, Z.leb_le. split.
  - intros [Hf H].
    destruct (nth_error (FramesTable r) (Z.to_nat f)) as [entry|] eqn:Hn;
      [|discriminate].
    apply betweenSeps_Some_iff in H as [sym Hs]. exists sym.
    rewrite (GetFrame_entry r f entry) by (apply at_index_Ok; auto).
    now rewrite Split_second, Hs.
  - intros [sym H]. unfold GetFrame in H.
    destruct (at_index (FramesTable r) f) as [entry|p] eqn:He;
      [|discriminate].
    apply at_index_Ok in He as [Hf Hn]. split; [exact Hf|]. rewrite Hn.
    simpl in H. rewrite Split_second in H.
    apply betweenSeps_Some_iff.
    destruct (betweenSeps entry); [eauto | discriminate].
Qed.

Lemma symbol_resolves (r : Report) (f : Z) :
  resolves r f -> GetFrame r f = Ok (symbol r f).
Proof. intros [sym H]. unfold symbol. now rewrite H. Qed.

(** C2 (as the code has it).  For an in-bounds frame-table index whose
    entry contains the separator, [GetFrame] returns the text between
    the first occurrence of [": "] and the next occurrence, or the end of
    the entry when the separator occurs only once: [strings.Split] cuts
    at every occurrence and the code takes piece 1. *)
Theorem GetFrame_between_separators (r : Report) (i : Z)
  (entry rest : string) :
  0 <= i ->
  nth_error (FramesTable r) (Z.to_nat i) = Some entry ->
  afterFirstSep entry = Some rest ->
  GetFrame r i =
  Ok (match Index rest frameSep with
      | Some m => take m rest
      | None => rest
      end).
Proof.
  intros Hi Hn Hrest.
  rewrite (GetFrame_entry r i entry) by (apply at_index_Ok; auto).
  rewrite Split_second. unfold betweenSeps. rewrite Hrest.
  now destruct (Index rest frameSep).
Qed.

Lemma GetFrame_between_separators_witness :
  GetFrame reportTwoSeps 0 = Ok "foo" /\
  GetFrame reportExample 1 = Ok "alloc".
Proof.
  split.
  - apply (GetFrame_between_separators reportTwoSeps 0
             "at: foo: bar" "foo: bar"); [lia | reflexivity | reflexivity].
  - apply (GetFrame_between_separators reportExample 1
             "at: alloc" "alloc"); [lia | reflexivity | reflexivity].
Defined.

(** When the separator occurs exactly once, that is the whole rest of
    the entry. *)
Lemma GetFrame_single_separator (r : Report) (i : Z) (entry rest : string) :
  0 <= i ->
  nth_error (FramesTable r) (Z.to_nat i) = Some entry ->
  afterFirstSep entry = Some rest ->
  Contains rest frameSep = false ->
  GetFrame r i = Ok rest.
Proof.
  intros Hi Hn Hrest Hc.
  rewrite (GetFrame_entry r i entry) by (apply at_index_Ok; auto).
  rewrite Split_second. unfold betweenSeps. rewrite Hrest.
  unfold Contains in Hc. now destruct (Index rest frameSep).
Qed.

(** C2 as stated fails: with two separators in the entry the later one
    and what follows it are dropped. *)
Lemma GetFrame_drops_after_second_separator :
  nth_error (FramesTable reportTwoSeps) 0 = Some "at: foo: bar" /\
  afterFirstSep "at: foo: bar" = Some "foo: bar" /\
  GetFrame reportTwoSeps 0 = Ok "foo" /\
  GetFrame reportTwoSeps 0 <> Ok "foo: bar".
Proof. repeat split; try reflexivity. discriminate. Qed.

(** ** Ignore-list filter *)

Lemma hasFrameLoop_cons (r : Report) (f : Z) (rest : list Z) (s : string) :
  hasFrameLoop r (f :: rest) s =
  res_bind (GetFrame r f) (fun sym =>
    if Contains sym s then Ok true else hasFrameLoop r rest s).
Proof.
  unfold GetFrame. simpl.
  now destruct (at_index (FramesTable r) f).
Qed.

Lemma hasFrameLoop_firstHit (r : Report) (frames : list Z) (s : string) :
  hasFrameLoop r frames s = firstHit r (map (fun f => (s, f)) frames).
Proof.
  induction frames as [|f rest IH]; [reflexivity|].
  rewrite hasFrameLoop_cons. cbn [map firstHit].
  destruct (GetFrame r f) as [sym|p]; simpl; [|reflexivity].
  now rewrite IH.
Qed.

Lemma firstHit_app (r : Report) (ts ts' : list (string * Z)) :
  firstHit r (ts ++ ts') =
  res_bind (firstHit r ts) (fun hit =>
    if hit then Ok true else firstHit r ts').
Proof.
  induction ts as [|[k f] ts IH]; [reflexivity|].
  cbn [app firstHit].
  destruct (GetFrame r f) as [sym|p]; simpl; [|reflexivity].
  destruct (Contains sym k); [reflexivity | exact IH].
Qed.

(** [shouldIgnore] makes the tests in the order of [tests] and stops at
    the first hit. *)
Lemma shouldIgnore_firstHit (r : Report) (i : Z) (pp : ProgramPoint)
  (keywords : list string) :
  at_index (ProgramPoints r) i = Ok pp ->
  shouldIgnore r i keywords = firstHit r (tests keywords (Frames pp)).
Proof.
  intros Hpp. induction keywords as [|k ks IH]; [reflexivity|].
  cbn [shouldIgnore tests flat_map]. rewrite firstHit_app.
  unfold ProgramPointHasFrame. rewrite Hpp. cbn [res_bind].
  rewrite hasFrameLoop_firstHit.
  destruct (firstHit r (map _ (Frames pp))) as [[|]|p]; simpl;
    [reflexivity | exact IH | reflexivity].
Qed.

Lemma firstHit_true (r : Report) (ts : list (string * Z)) :
  firstHit r ts = Ok true <-> hitReached r ts.
Proof.
  unfold hitReached. split.
  - induction ts as [|[k f] ts IH]; [discriminate|].
    cbn [firstHit]. destruct (GetFrame r f) as [sym|p] eqn:Hf;
      [|discriminate].
    simpl. destruct (Contains sym k) eqn:Hc.
    + intros _. exists [], k, f, ts, sym. auto.
    + intros H. destruct (IH H) as (pre & k' & f' & post & sym' & -> & Hpre & Hm).
      exists ((k, f) :: pre), k', f', post, sym'. split; [reflexivity|].
      split; [|exact Hm]. constructor; [now exists sym | exact Hpre].
  - intros (pre & k & f & post & sym & -> & Hpre & Hf & Hc).
    induction Hpre as [|[k' f'] pre [sym' Hf'] _ IH]; cbn [app firstHit].
    + now rewrite Hf; simpl; rewrite Hc.
    + simpl in Hf'. rewrite Hf'. simpl.
      now destruct (Contains sym' k').
Qed.

(** C1 (as the code has it).  For every report, site index and keyword
    list, [shouldIgnore] returns true exactly when the site exists and,
    making the tests keyword by keyword in list order and frame by frame
    in list order, some keyword is contained in some resolved frame and
    every frame looked at before that first hit resolves; it stops
    there. *)
Theorem shouldIgnore_true_iff (r : Report) (i : Z) (keywords : list string) :
  shouldIgnore r i keywords = Ok true <->
  exists pp, at_index (ProgramPoints r) i = Ok pp /\
             hitReached r (tests keywords (Frames pp)).
Proof.
  split.
  - intros H. destruct (at_index (ProgramPoints r) i) as [pp|p] eqn:Hpp.
    + exists pp. split; [reflexivity|].
      apply firstHit_true. now rewrite <- (shouldIgnore_firstHit r i pp).
    + destruct keywords as [|k ks]; [discriminate|].
      cbn [shouldIgnore] in H. unfold ProgramPointHasFrame in H.
      rewrite Hpp in H. discriminate.
  - intros (pp & Hpp & H).
    rewrite (shouldIgnore_firstHit r i pp _ Hpp). now apply firstHit_true.
Qed.

Lemma In_tests (keywords : list string) (frames : list Z) (k : string) (f : Z) :
  In (k, f) (tests keywords frames) <-> In k keywords /\ In f frames.
Proof.
  unfold tests. rewrite in_flat_map. split.
  - intros (k' & Hk & H). apply in_map_iff in H as (f' & [= -> ->] & Hf). auto.
  - intros [Hk Hf]. exists k. split; [exact Hk|].
    apply in_map_iff. now exists f.
Qed.

Lemma hitReached_keywordInSite (r : Report) (pp : ProgramPoint)
  (keywords : list string) :
  hitReached r (tests keywords (Frames pp)) -> keywordInSite r pp keywords.
Proof.
  intros (pre & k & f & post & sym & E & _ & Hf & Hc).
  assert (Hin : In (k, f) (tests keywords (Frames pp)))
    by (rewrite E; apply in_elt).
  apply In_tests in Hin as [Hk Hin]. now exists k, f, sym.
Qed.

Lemma firstHit_resolved (r : Report) (ts : list (string * Z)) :
  Forall (fun t => resolves r (snd t)) ts ->
  firstHit r ts = Ok (existsb (fun t => Contains (symbol r (snd t)) (fst t)) ts).
Proof.
  induction 1 as [|[k f] ts Hf _ IH]; [reflexivity|].
  cbn [firstHit existsb fst snd]. simpl in Hf.
  rewrite (symbol_resolves _ _ Hf). simpl.
  now destruct (Contains (symbol r f) k).
Qed.

Lemma existsb_tests (r : Report) (keywords : list string) (frames : list Z) :
  existsb (fun t => Contains (symbol r (snd t)) (fst t)) (tests keywords frames)
  = existsb (fun k => existsb (fun f => Contains (symbol r f) k) frames)
            keywords.
Proof.
  induction keywords as [|k ks IH]; [reflexivity|].
  cbn [tests flat_map existsb]. rewrite existsb_app. f_equal; [|exact IH].
  clear IH. induction frames as [|f fs IHf]; [reflexivity|].
  cbn [map existsb fst snd]. now rewrite IHf.
Qed.

Lemma siteOk_Forall (r : Report) (pp : ProgramPoint) :
  siteOk r pp = true <-> Forall (resolves r) (Frames pp).
Proof.
  unfold siteOk. rewrite forallb_forall, Forall_forall.
  split; intros H f Hf; apply frameOk_resolves; auto.
Qed.

(** On a site that satisfies the invariants of the data model,
    [shouldIgnore] returns, and returns the plain disjunction. *)
Lemma shouldIgnore_valid (r : Report) (i : Z) (pp : ProgramPoint)
  (keywords : list string) :
  at_index (ProgramPoints r) i = Ok pp ->
  siteOk r pp = true ->
  shouldIgnore r i keywords = Ok (siteMatches r pp keywords).
Proof.
  intros Hpp Hok. rewrite (shouldIgnore_firstHit r i pp _ Hpp).
  rewrite firstHit_resolved.
  - unfold siteMatches. now rewrite existsb_tests.
  - apply Forall_forall. intros [k f] Hin. apply In_tests in Hin as [_ Hf].
    apply siteOk_Forall in Hok. rewrite Forall_forall in Hok. now apply Hok.
Qed.

Lemma siteMatches_iff (r : Report) (pp : ProgramPoint)
  (keywords : list string) :
  siteOk r pp = true ->
  siteMatches r pp keywords = true <-> keywordInSite r pp keywords.
Proof.
  intros Hok. apply siteOk_Forall in Hok. rewrite Forall_forall in Hok.
  unfold siteMatches, keywordInSite. rewrite existsb_exists. split.
  - intros (k & Hk & H). apply existsb_exists in H as (f & Hf & Hc).
    exists k, f, (symbol r f). repeat split; auto.
    apply symbol_resolves; auto.
  - intros (k & f & sym & Hk & Hf & Hg & Hc). exists k. split; [exact Hk|].
    apply existsb_exists. exists f. split; [exact Hf|].
    unfold symbol. now rewrite Hg.
Qed.

(** On such a site the claim holds as stated. *)
Lemma shouldIgnore_valid_iff (r : Report) (i : Z) (pp : ProgramPoint)
  (keywords : list string) :
  at_index (ProgramPoints r) i = Ok pp ->
  siteOk r pp = true ->
  shouldIgnore r i keywords = Ok true <-> keywordInSite r pp keywords.
Proof.
  intros Hpp Hok. rewrite (shouldIgnore_valid r i pp _ Hpp Hok).
  rewrite <- (siteMatches_iff r pp keywords Hok).
  split; [intros [= ->]; reflexivity | intros ->; reflexivity].
Qed.

(** C1 as stated fails: a keyword is contained in a resolved frame of
    the site, yet the call panics on the frame index in front of it. *)
Lemma shouldIgnore_panics_before_match :
  at_index (ProgramPoints reportBadIndex) 0 = Ok (mkSite 100 1 [7; 0]) /\
  keywordInSite reportBadIndex (mkSite 100 1 [7; 0]) ["foo"] /\
  shouldIgnore reportBadIndex 0 ["foo"] = Panic (IndexOutOfRange 7 1) /\
  shouldIgnore reportBadIndex 0 ["foo"] <> Ok true.
Proof.
  split; [reflexivity|]. split.
  - exists "foo", 0, "foo". simpl. repeat split; auto.
  - split; [reflexivity | discriminate].
Qed.

(** ** Ignore file *)

Lemma TrimLeft_spec (cutset s : string) :
  exists pre, s = (pre ++ TrimLeft s cutset)%string /\
              allInCutset cutset pre = true /\
              outsideCutset cutset (firstByte (TrimLeft s cutset)) = true.
Proof.
  induction s as [|c s (pre & E & Hpre & Hfirst)].
  - now exists EmptyString.
  - simpl. destruct (inCutset cutset c) eqn:Hc.
    + exists (String c pre). simpl. rewrite Hc, Hpre, <- E. auto.
    + exists EmptyString. simpl. now rewrite Hc.
Qed.

Lemma TrimRight_spec (cutset s : string) :
  exists post, s = (TrimRight s cutset ++ post)%string /\
               allInCutset cutset post = true /\
               outsideCutset cutset (lastByte (TrimRight s cutset)) = true.
Proof.
  induction s as [|c s (post & E & Hpost & Hlast)].
  - now exists EmptyString.
  - simpl. destruct (TrimRight s cutset) as [|d t] eqn:Ht.
    + destruct (inCutset cutset c) eqn:Hc.
      * exists (String c post). simpl in *. subst post. rewrite Hc, Hpost. auto.
      * exists post. simpl in *. subst post. rewrite Hc. auto.
    + exists post. split; [simpl in *; congruence|]. auto.
Qed.

Lemma lastByte_append_nonempty (a : string) (c : ascii) (b : string) :
  lastByte (a ++ String c b) = lastByte (String c b).
Proof.
  induction a as [|x a IH]; [reflexivity|].
  simpl append. cbn [lastByte]. rewrite IH.
  destruct (a ++ String c b)%string eqn:E; [|reflexivity].
  destruct a; discriminate.
Qed.

(** [strings.Trim] removes exactly the leading and the trailing run of
    cutset bytes. *)
Lemma Trim_spec (cutset line : string) :
  trimmedOf cutset line (Trim line cutset).
Proof.
  unfold trimmedOf, Trim.
  destruct (TrimRight_spec cutset line) as (post & E & Hpost & Hlast).
  destruct (TrimLeft_spec cutset (TrimRight line cutset))
    as (pre & E' & Hpre & Hfirst).
  exists pre, post. repeat split; auto.
  - rewrite <- append_assoc, <- E'. exact E.
  - destruct (TrimLeft (TrimRight line cutset) cutset) as [|c t] eqn:Ht;
      [reflexivity|].
    rewrite E' in Hlast. now rewrite lastByte_append_nonempty in Hlast.
Qed.

Lemma ignoreLoop_filter (lines acc : list string) :
  ignoreLoop lines acc =
  acc ++ filter keepLine (map (fun line => Trim line trimCutset) lines).
Proof.
  revert acc; induction lines as [|line rest IH]; intros acc.
  - simpl. now rewrite app_nil_r.
  - cbn [ignoreLoop map filter].
    destruct (Trim line trimCutset) as [|c t]; cbn [keepLine]; [apply IH|].
    destruct (Ascii.eqb c "#"%char); cbn [negb]; [apply IH|].
    rewrite IH, <- app_assoc. reflexivity.
Qed.

(** [strings.Split] loses nothing: joining the pieces with the separator
    gives the text back, and no piece contains the separator. *)
Lemma Split_spec (sep : string) :
  sep <> EmptyString ->
  forall s, String.concat sep (Split s sep) = s /\
            Forall (fun piece => Contains piece sep = false) (Split s sep).
Proof.
  intros Hsep.
  assert (Hpos : (0 < String.length sep)%nat)
    by (destruct sep; [congruence | simpl; lia]).
  assert (H : forall n s, (String.length s <= n)%nat ->
            String.concat sep (Split s sep) = s /\
            Forall (fun piece => Contains piece sep = false) (Split s sep)).
  { induction n as [|n IH]; intros s Hn; rewrite (Split_unfold s sep Hsep);
      destruct (Index s sep) as [m|] eqn:Hi;
      try (split; [reflexivity | constructor; [|constructor]];
           unfold Contains; now rewrite Hi).
    - pose proof (Index_bound _ _ _ Hi). lia.
    - pose proof (Index_bound _ _ _ Hi) as Hb.
      destruct (IH (drop (m + String.length sep) s)) as [IH1 IH2];
        [rewrite length_drop; lia|].
      destruct (Index_Some _ _ _ Hi) as [E L].
      split.
      + cbn [String.concat].
        destruct (Split (drop (m + String.length sep) s) sep) as [|p ps] eqn:Hs.
        * rewrite (Split_unfold _ sep Hsep) in Hs.
          destruct (Index (drop _ s) sep); discriminate.
        * rewrite IH1. symmetry. exact E.
      + constructor; [|exact IH2].
        unfold Contains.
        destruct (Index (take m s) sep) as [k|] eqn:Hk; [|reflexivity].
        exfalso.
        destruct (Index_Some _ _ _ Hk) as [Ek Lk].
        pose proof (Index_bound _ _ _ Hk) as Hbk. rewrite L in Hbk.
        assert (Hpre : HasPrefix (drop k s) sep = true).
        { apply HasPrefix_iff.
          exists (drop (k + String.length sep) (take m s)
                  ++ sep ++ drop (m + String.length sep) s)%string.
          rewrite E at 1. rewrite Ek at 1.
          rewrite !append_assoc.
          replace k with (String.length (take k (take m s))) at 1
            by (destruct (Index_Some _ _ _ Hk); assumption).
          now rewrite drop_append. }
        rewrite (Index_first s sep m k Hi) in Hpre; [discriminate | lia]. }
  intros s. now apply (H (String.length s)).
Qed.

(** C6.  With an empty path [parseIgnoreFile] returns the empty list;
    with the path of a readable file it splits the content at newlines,
    trims space and tab from both ends of each line ([Trim_spec]), drops
    the lines that are then empty or start with '#', and returns the
    others in file order. *)
Theorem parseIgnoreFile_spec (ReadFile : string -> string + string)
  (file content : string) :
  file <> EmptyString ->
  ReadFile file = inr content ->
  parseIgnoreFile ReadFile EmptyString = inr [] /\
  parseIgnoreFile ReadFile file = inr (keywordsOf content) /\
  String.concat Fmt.LF (Split content Fmt.LF) = content /\
  Forall (fun kw => exists line,
            In line (Split content Fmt.LF) /\
            trimmedOf trimCutset line kw /\
            kw <> EmptyString /\ firstByte kw <> Some "#"%char)
         (keywordsOf content) /\
  keywordsOf (String.concat Fmt.LF fourLines) = ["foo"; "bar"]%string.
Proof.
  intros Hfile Hread. split; [reflexivity|]. split; [|split; [|split]].
  - unfold parseIgnoreFile. destruct file as [|c file]; [congruence|].
    rewrite Hread. unfold keywordsOf. now rewrite ignoreLoop_filter.
  - apply Split_spec. discriminate.
  - apply Forall_forall. intros kw Hin. unfold keywordsOf in Hin.
    apply filter_In in Hin as [Hin Hkeep].
    apply in_map_iff in Hin as (line & <- & Hline).
    exists line. split; [exact Hline|]. split; [apply Trim_spec|].
    destruct (Trim line trimCutset) as [|c t]; [discriminate|].
    split; [discriminate|]. simpl in *. intros [= ->]. discriminate.
  - reflexivity.
Qed.

Lemma parseIgnoreFile_spec_witness :
  parseIgnoreFile (fun _ => inr (String.concat Fmt.LF fourLines)) "ignore.txt"
    = inr ["foo"; "bar"]%string /\
  parseIgnoreFile (fun _ => inr (unlines fourLines)) "ignore.txt"
    = inr ["foo"; "bar"]%string.
Proof.
  split.
  - destruct (parseIgnoreFile_spec
                (fun _ => inr (String.concat Fmt.LF fourLines))
                "ignore.txt" (String.concat Fmt.LF fourLines))
      as (_ & H & _); [discriminate | reflexivity |].
    rewrite H. reflexivity.
  - destruct (parseIgnoreFile_spec
                (fun _ => inr (unlines fourLines))
                "ignore.txt" (unlines fourLines))
      as (_ & H & _); [discriminate | reflexivity |].
    rewrite H. reflexivity.
Defined.

(** ** Renderer *)

Lemma bind_ret {A B : Type} (a : A) (k : A -> IO B) : bind (ret a) k = k a.
Proof. unfold bind, ret. now destruct (k a). Qed.

Lemma bind_print {B : Type} (e : event) (k : unit -> IO B) :
  bind (print e) k = (e :: fst (k tt), snd (k tt)).
Proof. unfold bind, print. now destruct (k tt). Qed.

Lemma bind_fail {A B : Type} (f : failure) (k : A -> IO B) :
  bind (fail f) k = fail f.
Proof. reflexivity. Qed.

Lemma bind_Done {A B : Type} (out : list event) (a : A) (k : A -> IO B) :
  bind (out, Done a) k = (out ++ fst (k a), snd (k a)).
Proof. unfold bind. now destruct (k a). Qed.

Lemma bind_Failed {A B : Type} (out : list event) (f : failure)
  (k : A -> IO B) :
  bind (out, Failed f) k = (out, Failed f).
Proof. reflexivity. Qed.

Lemma bind_assoc {A B C : Type} (m : IO A) (k : A -> IO B) (h : B -> IO C) :
  bind (bind m k) h = bind m (fun a => bind (k a) h).
Proof.
  destruct m as [out [a|f]]; [|reflexivity].
  unfold bind. destruct (k a) as [out' [b|f]]; [|reflexivity].
  destruct (h b) as [out'' o]. now rewrite app_assoc.
Qed.

Lemma bind_ext {A B : Type} (m : IO A) (k k' : A -> IO B) :
  (forall a, k a = k' a) -> bind m k = bind m k'.
Proof.
  intros H. destruct m as [out [a|f]]; [|reflexivity].
  unfold bind. now rewrite H.
Qed.

Lemma firstn_snoc {A : Type} (l : list A) (j : nat) (x : A) :
  nth_error l j = Some x -> firstn (S j) l = firstn j l ++ [x].
Proof.
  revert j; induction l as [|y l IH]; intros [|j] H; simpl in *;
    try discriminate.
  - now injection H as ->.
  - now rewrite <- (IH j H).
Qed.

Lemma nth_error_lt {A : Type} (l : list A) (j : nat) :
  (j < List.length l)%nat -> exists x, nth_error l j = Some x.
Proof.
  intros H. destruct (nth_error l j) as [x|] eqn:E; [eauto|].
  apply nth_error_None in E. lia.
Qed.

(** The descending loop over a site's frames, when they resolve. *)
Lemma framesLoop_resolved (r : Report) (outputHtml : bool)
  (pp : ProgramPoint) (n : nat) :
  (n <= List.length (Frames pp))%nat ->
  Forall (resolves r) (firstn n (Frames pp)) ->
  framesLoop r outputHtml pp n =
  (map (frameLine outputHtml) (rev (map (symbol r) (firstn n (Frames pp)))),
   Done tt).
Proof.
  induction n as [|j IH]; intros Hn Hall; [reflexivity|].
  destruct (nth_error_lt (Frames pp) j) as [f Hf]; [lia|].
  rewrite (firstn_snoc _ _ _ Hf) in *.
  apply Forall_app in Hall as [Hall Hres].
  apply Forall_inv in Hres.
  cbn [framesLoop]. rewrite (at_index_of_nat _ _ _ Hf). cbn [lift].
  rewrite bind_ret, (symbol_resolves _ _ Hres). cbn [lift].
  rewrite bind_ret, bind_print, IH by (auto; lia).
  rewrite map_app, rev_app_distr. reflexivity.
Qed.

(** ... and when one of them does not: the loop dies on the panic of
    the first frame, going down, that fails to resolve. *)
Lemma framesLoop_unresolved (r : Report) (outputHtml : bool)
  (pp : ProgramPoint) (n : nat) :
  (n <= List.length (Frames pp))%nat ->
  Exists (fun f => ~ resolves r f) (firstn n (Frames pp)) ->
  exists out f p,
    framesLoop r outputHtml pp n = (out, Failed (Panicked p)) /\
    In f (Frames pp) /\ GetFrame r f = Panic p.
Proof.
  induction n as [|j IH]; intros Hn Hex; [inversion Hex|].
  destruct (nth_error_lt (Frames pp) j) as [f Hf]; [lia|].
  rewrite (firstn_snoc _ _ _ Hf) in Hex.
  cbn [framesLoop]. rewrite (at_index_of_nat _ _ _ Hf). cbn [lift].
  rewrite bind_ret.
  destruct (GetFrame r f) as [sym|p] eqn:Hg.
  - apply Exists_app in Hex as [Hex|Hex].
    + destruct (IH ltac:(lia) Hex) as (out & f' & p & Hl & Hin & Hp).
      exists (PrintFrame (if outputHtml then Html.EscapeString sym else sym)
                :: out), f', p.
      cbn [lift]. rewrite bind_ret, bind_print, Hl. auto.
    + apply Exists_cons in Hex as [Hex|Hex]; [|inversion Hex].
      exfalso. apply Hex. now exists sym.
  - exists [], f, p. split; [reflexivity|].
    split; [eapply nth_error_In; eauto | exact Hg].
Qed.

Lemma siteBody_ignored (r : Report) (keywords : list string)
  (outputHtml : bool) (i : nat) (pp : ProgramPoint) (c : Z) :
  shouldIgnore r (Z.of_nat i) keywords = Ok true ->
  siteBody r keywords outputHtml i pp c = ([], Done c).
Proof. intros H. unfold siteBody. now rewrite H. Qed.

Lemma siteBody_kept (r : Report) (keywords : list string)
  (outputHtml : bool) (i : nat) (pp : ProgramPoint) (c : Z) :
  shouldIgnore r (Z.of_nat i) keywords = Ok false ->
  siteOk r pp = true ->
  siteBody r keywords outputHtml i pp c = (siteBlock r outputHtml c pp, Done (c + 1)).
Proof.
  intros Hs Hok. unfold siteBody. rewrite Hs. cbn [lift].
  rewrite bind_ret, !bind_print.
  rewrite (framesLoop_resolved r outputHtml pp (List.length (Frames pp)));
    [| lia | rewrite firstn_all; now apply siteOk_Forall].
  rewrite firstn_all. unfold siteBlock.
  destruct outputHtml; cbn [when]; rewrite ?bind_print, ?bind_ret, !bind_Done;
    cbn [fst snd ret print app]; rewrite ?app_nil_r; reflexivity.
Qed.

Lemma sitesLoop_app (r : Report) (keywords : list string) (outputHtml : bool)
  (pre rest : list ProgramPoint) (i : nat) (c : Z) :
  sitesLoop r keywords outputHtml i (pre ++ rest) c =
  bind (sitesLoop r keywords outputHtml i pre c)
       (sitesLoop r keywords outputHtml (i + List.length pre) rest).
Proof.
  revert i c; induction pre as [|pp pre IH]; intros i c.
  - cbn [app sitesLoop List.length]. rewrite bind_ret. f_equal. lia.
  - cbn [app sitesLoop List.length]. rewrite bind_assoc. apply bind_ext.
    intros c'. rewrite IH. do 2 f_equal. lia.
Qed.

Lemma validReport_sites (r : Report) :
  validReport r = true ->
  Forall (fun pp => siteOk r pp = true) (ProgramPoints r).
Proof. intros H. apply Forall_forall. now apply forallb_forall. Qed.

(** The loop over the sites of a report that satisfies the invariants:
    it prints the block of every site that is not ignored, numbered
    consecutively. *)
Lemma sitesLoop_valid (r : Report) (keywords : list string)
  (outputHtml : bool) :
  forall (rest : list ProgramPoint) (i : nat) (c : Z),
    (forall k pp, nth_error rest k = Some pp ->
                  nth_error (ProgramPoints r) (i + k) = Some pp) ->
    Forall (fun pp => siteOk r pp = true) rest ->
    sitesLoop r keywords outputHtml i rest c =
    (flat_map (fun np => siteBlock r outputHtml (fst np) (snd np))
              (numberFrom c (keptFrom r keywords i rest)),
     Done (c + Z.of_nat (List.length (keptFrom r keywords i rest)))).
Proof.
  induction rest as [|pp rest IH]; intros i c Hnth Hok.
  - cbn. now rewrite Z.add_0_r.
  - apply Forall_cons_iff in Hok as [Hpp Hok].
    assert (Hat : at_index (ProgramPoints r) (Z.of_nat i) = Ok pp).
    { apply at_index_of_nat. rewrite <- (Nat.add_0_r i). now apply Hnth. }
    assert (Hrest : forall k pp', nth_error rest k = Some pp' ->
              nth_error (ProgramPoints r) (S i + k) = Some pp').
    { intros k pp' H. replace (S i + k)%nat with (i + S k)%nat by lia.
      now apply Hnth. }
    pose proof (shouldIgnore_valid r _ pp keywords Hat Hpp) as Hs.
    cbn [sitesLoop keptFrom]. unfold ignoredAt. rewrite Hs.
    destruct (siteMatches r pp keywords).
    + rewrite (siteBody_ignored _ _ _ _ _ _ Hs), bind_Done.
      rewrite (IH (S i) c Hrest Hok). reflexivity.
    + rewrite (siteBody_kept _ _ _ _ _ _ Hs Hpp), bind_Done.
      rewrite (IH (S i) (c + 1) Hrest Hok).
      cbn [fst snd numberFrom flat_map List.length]. f_equal. f_equal. lia.
Qed.

Lemma counters_app (a b : list event) :
  counters (a ++ b) = counters a ++ counters b.
Proof. apply flat_map_app. Qed.

Lemma counters_frames (outputHtml : bool) (syms : list string) :
  counters (map (frameLine outputHtml) syms) = [].
Proof. induction syms; [reflexivity | exact IHsyms]. Qed.

Lemma counters_siteBlock (r : Report) (outputHtml : bool) (n : Z)
  (pp : ProgramPoint) :
  counters (siteBlock r outputHtml n pp) = [n].
Proof.
  unfold siteBlock. rewrite !counters_app, counters_frames.
  now destruct outputHtml.
Qed.

Lemma counters_blocks (r : Report) (outputHtml : bool)
  (sites : list ProgramPoint) (c : Z) :
  counters (flat_map (fun np => siteBlock r outputHtml (fst np) (snd np))
                     (numberFrom c sites))
  = map (fun k => c + Z.of_nat k) (seq 0 (List.length sites)).
Proof.
  revert c; induction sites as [|pp sites IH]; intros c; [reflexivity|].
  cbn [numberFrom flat_map fst snd List.length seq map].
  rewrite counters_app, counters_siteBlock, IH, <- seq_shift, map_map.
  cbn [app]. f_equal; [lia|]. apply map_ext. intros k. lia.
Qed.

Lemma keptFrom_subseq (r : Report) (keywords : list string)
  (pps : list ProgramPoint) (i : nat) :
  subseq (keptFrom r keywords i pps) pps.
Proof.
  revert i; induction pps as [|pp pps IH]; intros i; cbn [keptFrom].
  - constructor.
  - destruct (ignoredAt r keywords i); constructor; apply IH.
Qed.

Lemma keptFrom_nil (r : Report) (pps : list ProgramPoint) (i : nat) :
  keptFrom r [] i pps = pps.
Proof.
  revert i; induction pps as [|pp pps IH]; intros i; [reflexivity|].
  cbn. now rewrite IH.
Qed.

Lemma render_version_ok (r : Report) (keywords : list string)
  (outputHtml : bool) :
  Version r = dhatVersion ->
  render r keywords outputHtml =
  bind (preamble r outputHtml, Done tt) (fun _ =>
    bind (sitesLoop r keywords outputHtml 0 (ProgramPoints r) 1) (fun _ =>
      (closing outputHtml, Done tt))).
Proof.
  intros Hv. unfold render. rewrite Hv, Z.eqb_refl. cbn [negb].
  unfold preamble, closing.
  destruct (sitesLoop r keywords outputHtml 0 (ProgramPoints r) 1)
    as [out [c|f]]; destruct outputHtml; reflexivity.
Qed.

(** A run whose ignore list loads and whose report decodes is the
    rendering of that report under that list; without [-i] the list is
    empty. *)
Lemma mainErr_render (ReadFile : string -> string + string)
  (decodeReport : string -> string + Report)
  (ignoreFile dhatFile : string) (outputHtml : bool)
  (ignoreList : list string) (report : Report) :
  parseIgnoreFile ReadFile ignoreFile = inr ignoreList ->
  decodeReport dhatFile = inr report ->
  mainErr ReadFile decodeReport ignoreFile outputHtml dhatFile
  = render report ignoreList outputHtml.
Proof. intros Hi Hd. unfold mainErr, parseReport. now rewrite Hi, Hd. Qed.

Lemma mainErr_no_ignore_file (ReadFile : string -> string + string)
  (decodeReport : string -> string + Report)
  (dhatFile : string) (outputHtml : bool) (report : Report) :
  decodeReport dhatFile = inr report ->
  mainErr ReadFile decodeReport EmptyString outputHtml dhatFile
  = render report [] outputHtml.
Proof. intros Hd. now apply mainErr_render. Qed.

(** C3.  On a report that satisfies the invariants of the data model
    the output is the preamble, then the block of each site that
    [shouldIgnore] does not flag, in input order and numbered 1, 2, ...,
    N without gaps, then the closing; the sites shown are a subsequence
    of the input, and all of them with an empty ignore list. *)
Theorem render_valid_report (r : Report) (keywords : list string)
  (outputHtml : bool) :
  validReport r = true ->
  Version r = dhatVersion ->
  render r keywords outputHtml =
    (preamble r outputHtml
     ++ flat_map (fun np => siteBlock r outputHtml (fst np) (snd np))
                 (numberFrom 1 (kept r keywords))
     ++ closing outputHtml,
     Done tt) /\
  counters (fst (render r keywords outputHtml))
    = map Z.of_nat (seq 1 (List.length (kept r keywords))) /\
  subseq (kept r keywords) (ProgramPoints r) /\
  kept r [] = ProgramPoints r.
Proof.
  intros Hvalid Hv.
  assert (E : render r keywords outputHtml =
    (preamble r outputHtml
     ++ flat_map (fun np => siteBlock r outputHtml (fst np) (snd np))
                 (numberFrom 1 (kept r keywords))
     ++ closing outputHtml,
     Done tt)).
  { rewrite (render_version_ok _ _ _ Hv).
    rewrite (sitesLoop_valid r keywords outputHtml (ProgramPoints r) 0 1);
      [| intros k pp H; exact H | now apply validReport_sites].
    rewrite !bind_Done. reflexivity. }
  split; [exact E|]. split; [|split].
  - rewrite E. cbn [fst]. rewrite !counters_app, counters_blocks.
    assert (Hp : counters (preamble r outputHtml) = [])
      by (now destruct outputHtml).
    assert (Hc : counters (closing outputHtml) = [])
      by (now destruct outputHtml).
    rewrite Hp, Hc, app_nil_r. cbn [app].
    rewrite <- seq_shift, map_map. apply map_ext. intros k. lia.
  - apply keptFrom_subseq.
  - apply keptFrom_nil.
Qed.

Lemma render_valid_report_witness :
  fst (render reportThreeSites ["alloc"]%string false) =
    [PrintCommand "./prog"; PrintPID 4242; PrintMode "Heap";
     PrintTEnd 1000 "instrs";
     PrintBanner 1; PrintStats 8 1; PrintFrame "main (main.c:3)"]%string /\
  counters (fst (render reportThreeSites [] true)) = [1; 2; 3].
Proof.
  split.
  - destruct (render_valid_report reportThreeSites ["alloc"]%string false)
      as (E & _); [reflexivity | reflexivity |].
    rewrite E. reflexivity.
  - destruct (render_valid_report reportThreeSites [] true)
      as (_ & E & _); [reflexivity | reflexivity |].
    rewrite E. reflexivity.
Defined.

(** On such a report the sites shown are those no keyword matches. *)
Lemma kept_filter (r : Report) (keywords : list string) :
  validReport r = true ->
  kept r keywords =
  filter (fun pp => negb (siteMatches r pp keywords)) (ProgramPoints r).
Proof.
  intros Hvalid. apply validReport_sites in Hvalid. unfold kept.
  assert (H : forall rest i,
    (forall k pp, nth_error rest k = Some pp ->
                  nth_error (ProgramPoints r) (i + k) = Some pp) ->
    Forall (fun pp => siteOk r pp = true) rest ->
    keptFrom r keywords i rest =
    filter (fun pp => negb (siteMatches r pp keywords)) rest).
  { induction rest as [|pp rest IH]; intros i Hnth Hok; [reflexivity|].
    apply Forall_cons_iff in Hok as [Hpp Hok].
    assert (Hat : at_index (ProgramPoints r) (Z.of_nat i) = Ok pp).
    { apply at_index_of_nat. rewrite <- (Nat.add_0_r i). now apply Hnth. }
    cbn [keptFrom filter]. unfold ignoredAt.
    rewrite (shouldIgnore_valid r _ pp keywords Hat Hpp).
    rewrite (IH (S i)); [now destruct (siteMatches r pp keywords)| |exact Hok].
    intros k pp' Hk. replace (S i + k)%nat with (i + S k)%nat by lia.
    now apply Hnth. }
  apply H; [intros k pp Hk; exact Hk | exact Hvalid].
Qed.

Lemma framesOf_app (a b : list event) :
  framesOf (a ++ b) = framesOf a ++ framesOf b.
Proof. apply flat_map_app. Qed.

Lemma framesOf_frameLines (outputHtml : bool) (syms : list string) :
  framesOf (map (frameLine outputHtml) syms) = map (written outputHtml) syms.
Proof.
  induction syms as [|s syms IH]; [reflexivity|].
  cbn [map]. change (framesOf (frameLine outputHtml s :: ?l))
    with (written outputHtml s :: framesOf l). now rewrite IH.
Qed.

Lemma framesOf_siteBlock (r : Report) (outputHtml : bool) (n : Z)
  (pp : ProgramPoint) :
  framesOf (siteBlock r outputHtml n pp)
  = map (written outputHtml) (rev (map (symbol r) (Frames pp))).
Proof.
  unfold siteBlock. rewrite !framesOf_app, framesOf_frameLines.
  destruct outputHtml; cbn; now rewrite ?app_nil_r.
Qed.

(** Whatever the frames, what the descending loop prints before it
    ends or dies is the reverse of a tail of the [fs] sequence. *)
Lemma framesLoop_prints_reversed_tail (r : Report) (outputHtml : bool)
  (pp : ProgramPoint) (n : nat) :
  (n <= List.length (Frames pp))%nat ->
  exists k, (k <= n)%nat /\
    framesOf (fst (framesLoop r outputHtml pp n))
    = rev (map (fun f => written outputHtml (symbol r f))
               (skipn k (firstn n (Frames pp)))).
Proof.
  induction n as [|j IH]; intros Hn; [now exists 0%nat|].
  destruct (nth_error_lt (Frames pp) j) as [f Hf]; [lia|].
  cbn [framesLoop]. rewrite (at_index_of_nat _ _ _ Hf). cbn [lift].
  rewrite bind_ret, (firstn_snoc _ _ _ Hf).
  destruct (GetFrame r f) as [sym|p] eqn:Hg; cbn [lift].
  - destruct (IH ltac:(lia)) as (k & Hk & E).
    exists k. split; [lia|].
    rewrite bind_ret, bind_print. cbn [fst].
    rewrite skipn_app, map_app, rev_app_distr.
    assert (Hlen : List.length (firstn j (Frames pp)) = j)
      by (apply firstn_length_le; lia).
    rewrite Hlen. replace (k - j)%nat with 0%nat by lia.
    cbn [skipn map rev app]. unfold symbol at 1. rewrite Hg.
    change (framesOf (?e :: ?l)) with (framesOf [e] ++ framesOf l).
    now rewrite E.
  - exists (S j). split; [lia|].
    rewrite bind_fail. cbn [fst].
    rewrite skipn_all2; [reflexivity|].
    rewrite length_app, firstn_length_le by lia. simpl. lia.
Qed.

(** C4.  The frame lines of a rendered site are the site's resolved
    frames in the reverse of the order of its [fs] sequence: reversing
    what was printed gives the frames, as written in the output mode, in
    the original order. *)
Theorem frames_printed_in_reverse (r : Report) (keywords : list string)
  (outputHtml : bool) (i : nat) (pp : ProgramPoint) (c : Z) :
  shouldIgnore r (Z.of_nat i) keywords = Ok false ->
  siteOk r pp = true ->
  let printed := framesOf (fst (siteBody r keywords outputHtml i pp c)) in
  printed = rev (map (fun f => written outputHtml (symbol r f)) (Frames pp)) /\
  rev printed = map (fun f => written outputHtml (symbol r f)) (Frames pp).
Proof.
  intros Hs Hok printed.
  assert (E : printed =
    rev (map (fun f => written outputHtml (symbol r f)) (Frames pp))).
  { unfold printed. rewrite (siteBody_kept _ _ _ _ _ _ Hs Hok). cbn [fst].
    rewrite framesOf_siteBlock, <- map_rev, map_map, map_rev. reflexivity. }
  split; [exact E|]. rewrite E. apply rev_involutive.
Qed.

Lemma frames_printed_in_reverse_witness :
  framesOf (fst (siteBody reportExample [] false 0 (mkSite 100 1 [0; 1]) 1))
  = ["alloc"; "main"]%string.
Proof.
  destruct (frames_printed_in_reverse reportExample [] false 0
              (mkSite 100 1 [0; 1]) 1) as [E _];
    [reflexivity | reflexivity |].
  rewrite E. reflexivity.
Defined.

(** ** HTML escaping *)

Lemma hasByte_append (c : ascii) (a b : string) :
  hasByte c (a ++ b) = hasByte c a || hasByte c b.
Proof.
  unfold hasByte. induction a as [|x a IH]; [reflexivity|].
  simpl. now rewrite IH, orb_assoc.
Qed.

Lemma EscapeString_no_markup (s : string) (c : ascii) :
  htmlSpecial c = true -> c <> "&"%char ->
  hasByte c (Html.EscapeString s) = false.
Proof.
  intros Hc Hamp. induction s as [|x s IH]; [reflexivity|].
  cbn [Html.EscapeString]. rewrite hasByte_append, IH, orb_false_r.
  unfold htmlSpecial in Hc. unfold Html.escapeByte.
  destruct (Ascii.eqb_spec x "&"%char) as [->|Hx1].
  { repeat (apply orb_prop in Hc as [Hc|Hc]);
      apply Ascii.eqb_eq in Hc; subst c; try reflexivity; congruence. }
  destruct (Ascii.eqb_spec x Html.squote) as [->|Hx2].
  { repeat (apply orb_prop in Hc as [Hc|Hc]);
      apply Ascii.eqb_eq in Hc; subst c; try reflexivity; congruence. }
  destruct (Ascii.eqb_spec x "<"%char) as [->|Hx3].
  { repeat (apply orb_prop in Hc as [Hc|Hc]);
      apply Ascii.eqb_eq in Hc; subst c; try reflexivity; congruence. }
  destruct (Ascii.eqb_spec x ">"%char) as [->|Hx4].
  { repeat (apply orb_prop in Hc as [Hc|Hc]);
      apply Ascii.eqb_eq in Hc; subst c; try reflexivity; congruence. }
  destruct (Ascii.eqb_spec x Html.dquote) as [->|Hx5].
  { repeat (apply orb_prop in Hc as [Hc|Hc]);
      apply Ascii.eqb_eq in Hc; subst c; try reflexivity; congruence. }
  unfold hasByte. cbn [inCutset]. rewrite orb_false_r.
  apply Ascii.eqb_neq. intros ->.
  repeat (apply orb_prop in Hc as [Hc|Hc]);
    apply Ascii.eqb_eq in Hc; congruence.
Qed.

Lemma EscapeString_plain (s : string) :
  (forall c, hasByte c s = true -> htmlSpecial c = false) ->
  Html.EscapeString s = s.
Proof.
  induction s as [|x s IH]; intros H; [reflexivity|].
  cbn [Html.EscapeString]. rewrite IH.
  - assert (Hx : htmlSpecial x = false).
    { apply H. unfold hasByte. cbn. now rewrite Ascii.eqb_refl. }
    unfold htmlSpecial in Hx. unfold Html.escapeByte.
    repeat (apply orb_false_elim in Hx as [Hx ?]).
    repeat match goal with E : Ascii.eqb _ _ = false |- _ =>
      rewrite E; clear E end.
    reflexivity.
  - intros c Hc. apply H. unfold hasByte in *. cbn. rewrite Hc.
    apply orb_true_r.
Qed.

(** C8.  Each frame line of a rendered site is the resolved symbol
    followed by a newline: passed through [html.EscapeString] in HTML
    mode, which leaves no '<', '>' or quote in it and turns [a<b>c] into
    [a&lt;b&gt;c], and byte for byte as resolved in text mode. *)
Theorem frame_lines_escaped_in_html_only (r : Report)
  (keywords : list string) (i : nat) (pp : ProgramPoint) (c : Z) :
  shouldIgnore r (Z.of_nat i) keywords = Ok false ->
  siteOk r pp = true ->
  framesOf (fst (siteBody r keywords true i pp c))
    = map Html.EscapeString (rev (map (symbol r) (Frames pp))) /\
  framesOf (fst (siteBody r keywords false i pp c))
    = rev (map (symbol r) (Frames pp)) /\
  (forall frame, text (PrintFrame frame) = (frame ++ Fmt.LF)%string) /\
  (forall sym ch, htmlSpecial ch = true -> ch <> "&"%char ->
                  hasByte ch (Html.EscapeString sym) = false) /\
  (forall ch sym, Html.EscapeString (String ch sym) =
     ((if Ascii.eqb ch "&"%char then "&amp;"
       else if Ascii.eqb ch Html.squote then "&#39;"
       else if Ascii.eqb ch "<"%char then "&lt;"
       else if Ascii.eqb ch ">"%char then "&gt;"
       else if Ascii.eqb ch Html.dquote then "&#34;"
       else String ch EmptyString) ++ Html.EscapeString sym)%string) /\
  (forall sym, (forall ch, hasByte ch sym = true -> htmlSpecial ch = false) ->
               Html.EscapeString sym = sym) /\
  Html.EscapeString "a<b>c" = "a&lt;b&gt;c"%string.
Proof.
  intros Hs Hok.
  rewrite !(siteBody_kept _ _ _ _ _ _ Hs Hok). cbn [fst].
  rewrite !framesOf_siteBlock.
  split; [reflexivity|]. split; [apply map_id|].
  split; [reflexivity|]. split; [apply EscapeString_no_markup|].
  split; [reflexivity|]. split; [apply EscapeString_plain | reflexivity].
Qed.

Lemma frame_lines_escaped_in_html_only_witness :
  framesOf (fst (siteBody reportThreeSites [] true 1 (mkSite 64 2 [2; 1]) 2))
    = ["alloc (a.c:9)"; "a&lt;b&gt;c"]%string /\
  framesOf (fst (siteBody reportThreeSites [] false 1 (mkSite 64 2 [2; 1]) 2))
    = ["alloc (a.c:9)"; "a<b>c"]%string.
Proof.
  destruct (frame_lines_escaped_in_html_only reportThreeSites [] 1
              (mkSite 64 2 [2; 1]) 2) as (E1 & E2 & _);
    [reflexivity | reflexivity |].
  rewrite E1, E2. split; reflexivity.
Defined.

(** ** Version check *)

(** C5.  Once the ignore list is loaded and the report decoded, a
    version other than 2 makes the run return the error whose message
    gives the version found and the version required, before anything is
    printed. *)
Theorem unsupported_version_fails_silently
  (ReadFile : string -> string + string)
  (decodeReport : string -> string + Report)
  (ignoreFile dhatFile : string) (outputHtml : bool)
  (ignoreList : list string) (report : Report) :
  parseIgnoreFile ReadFile ignoreFile = inr ignoreList ->
  decodeReport dhatFile = inr report ->
  Version report <> 2 ->
  mainErr ReadFile decodeReport ignoreFile outputHtml dhatFile =
    ([], Failed (Error
       ("DHAT report version " ++ Fmt.d (Version report)
        ++ " is not supported, only version 2 is supported")%string)) /\
  stdout (fst (mainErr ReadFile decodeReport ignoreFile outputHtml dhatFile))
    = EmptyString.
Proof.
  intros Hi Hd Hv. unfold mainErr, parseReport. rewrite Hi, Hd.
  unfold render.
  destruct (Z.eqb_spec (Version report) dhatVersion) as [E|_];
    [contradiction|].
  split; reflexivity.
Qed.

Lemma unsupported_version_fails_silently_witness :
  mainErr (fun _ => inl "unused"%string) (fun _ => inr reportVersion1)
          EmptyString true "dhat.out"
  = ([], Failed (Error
       "DHAT report version 1 is not supported, only version 2 is supported")).
Proof.
  destruct (unsupported_version_fails_silently
              (fun _ => inl "unused"%string) (fun _ => inr reportVersion1)
              EmptyString "dhat.out" true [] reportVersion1) as [E _];
    [reflexivity | reflexivity | discriminate |].
  rewrite E. reflexivity.
Defined.

(** ** Resolution failures *)

Lemma GetFrame_out_of_bounds (r : Report) (f : Z) :
  f < 0 \/ Z.of_nat (List.length (FramesTable r)) <= f ->
  GetFrame r f = Panic (IndexOutOfRange f (List.length (FramesTable r))).
Proof.
  intros H. unfold GetFrame.
  assert (E : at_index (FramesTable r) f =
              Panic (IndexOutOfRange f (List.length (FramesTable r))))
    by (apply at_index_Panic; auto).
  now rewrite E.
Qed.

Lemma GetFrame_no_separator (r : Report) (f : Z) (entry : string) :
  at_index (FramesTable r) f = Ok entry ->
  Contains entry frameSep = false ->
  GetFrame r f = Panic (IndexOutOfRange 1 1).
Proof.
  intros He Hc. rewrite (GetFrame_entry r f entry He), Split_second.
  destruct (betweenSeps entry) as [sym|] eqn:Hb; [|reflexivity].
  assert (Contains entry frameSep = true)
    by (apply betweenSeps_Some_iff; eauto).
  congruence.
Qed.

(** The two ways [GetFrame] can fail; both are Go's bounds error. *)
Lemma GetFrame_Panic (r : Report) (f : Z) (p : panic) :
  GetFrame r f = Panic p ->
  (p = IndexOutOfRange f (List.length (FramesTable r)) /\
   (f < 0 \/ Z.of_nat (List.length (FramesTable r)) <= f)) \/
  (p = IndexOutOfRange 1 1 /\
   exists entry, at_index (FramesTable r) f = Ok entry /\
                 Contains entry frameSep = false).
Proof.
  intros H. destruct (at_index (FramesTable r) f) as [entry|p'] eqn:He.
  - right. rewrite (GetFrame_entry r f entry He), Split_second in H.
    destruct (betweenSeps entry) as [sym|] eqn:Hb; [discriminate|].
    injection H as <-. split; [reflexivity|]. exists entry.
    split; [reflexivity|].
    destruct (Contains entry frameSep) eqn:Hc; [|reflexivity].
    apply betweenSeps_Some_iff in Hc as [sym Hs]. congruence.
  - left. unfold GetFrame in H. rewrite He in H. injection H as <-.
    now apply at_index_Panic.
Qed.

(** A failure in one round of the loop over the sites ends the run:
    the rounds after it are not made and the closing is not printed. *)
Lemma render_site_failure (r : Report) (keywords : list string)
  (outputHtml : bool) (pre post : list ProgramPoint) (pp : ProgramPoint)
  (out out' : list event) (c : Z) (f : failure) :
  Version r = dhatVersion ->
  ProgramPoints r = pre ++ pp :: post ->
  sitesLoop r keywords outputHtml 0 pre 1 = (out, Done c) ->
  siteBody r keywords outputHtml (List.length pre) pp c = (out', Failed f) ->
  render r keywords outputHtml = (preamble r outputHtml ++ out ++ out', Failed f).
Proof.
  intros Hv Hpps Hpre Hbody.
  rewrite (render_version_ok _ _ _ Hv), Hpps, sitesLoop_app, Hpre.
  rewrite (bind_Done out). cbn [sitesLoop Nat.add]. rewrite Hbody, bind_Failed.
  cbn [fst snd]. rewrite bind_Failed, bind_Done. reflexivity.
Qed.

(** The same holds of a failure inside [shouldIgnore]: nothing of the
    site is printed and the run ends there. *)
Lemma shouldIgnore_panic_aborts_render (r : Report) (keywords : list string)
  (outputHtml : bool) (pre post : list ProgramPoint) (pp : ProgramPoint)
  (out : list event) (c : Z) (p : panic) :
  Version r = dhatVersion ->
  ProgramPoints r = pre ++ pp :: post ->
  sitesLoop r keywords outputHtml 0 pre 1 = (out, Done c) ->
  shouldIgnore r (Z.of_nat (List.length pre)) keywords = Panic p ->
  render r keywords outputHtml =
    (preamble r outputHtml ++ out, Failed (Panicked p)).
Proof.
  intros Hv Hpps Hpre Hs.
  rewrite (render_site_failure r keywords outputHtml pre post pp out [] c
             (Panicked p) Hv Hpps Hpre).
  - now rewrite app_nil_r.
  - unfold siteBody. now rewrite Hs.
Qed.

Lemma unresolved_Exists (r : Report) (l : list Z) :
  forallb (frameOk r) l = false -> Exists (fun f => ~ resolves r f) l.
Proof.
  induction l as [|f fs IH]; [discriminate|].
  cbn [forallb]. intros H. apply andb_false_iff in H as [H|H].
  - apply Exists_cons_hd. intros Hr. apply frameOk_resolves in Hr. congruence.
  - apply Exists_cons_tl. now apply IH.
Qed.

Lemma resolved_Forall (r : Report) (l : list Z) :
  forallb (frameOk r) l = true -> Forall (resolves r) l.
Proof.
  intros H. apply Forall_forall. intros f Hf. apply frameOk_resolves.
  rewrite forallb_forall in H. now apply H.
Qed.

(** The last frame of a list that does not resolve: the descending
    loop of the renderer meets it first. *)
Lemma split_last_unresolved (r : Report) (l : list Z) :
  Exists (fun f => ~ resolves r f) l ->
  exists before f after,
    l = before ++ f :: after /\ ~ resolves r f /\ Forall (resolves r) after.
Proof.
  induction l as [|x l IH]; intros H; [inversion H|].
  destruct (forallb (frameOk r) l) eqn:E.
  - apply resolved_Forall in E. exists [], x, l.
    split; [reflexivity|]. split; [|exact E].
    apply Exists_cons in H as [H|H]; [exact H|].
    exfalso. apply Exists_exists in H as (f & Hin & Hf).
    rewrite Forall_forall in E. exact (Hf (E f Hin)).
  - destruct (IH (unresolved_Exists r l E)) as (before & f & after & -> & Hf & Ha).
    exists (x :: before), f, after. auto.
Qed.

(** The first frame of a list that does not resolve: the ascending
    loop of the filter meets it first. *)
Lemma split_first_unresolved (r : Report) (l : list Z) :
  Exists (fun f => ~ resolves r f) l ->
  exists before f after,
    l = before ++ f :: after /\ ~ resolves r f /\ Forall (resolves r) before.
Proof.
  induction l as [|x l IH]; intros H; [inversion H|].
  destruct (frameOk r x) eqn:E.
  - apply frameOk_resolves in E.
    apply Exists_cons in H as [H|H]; [contradiction|].
    destruct (IH H) as (before & f & after & -> & Hf & Hb).
    exists (x :: before), f, after. auto.
  - exists [], x, l. split; [reflexivity|]. split; [|constructor].
    intros Hr. apply frameOk_resolves in Hr. congruence.
Qed.

Lemma unresolved_Panic (r : Report) (f : Z) :
  ~ resolves r f -> exists p, GetFrame r f = Panic p.
Proof.
  intros H. destruct (GetFrame r f) as [sym|p] eqn:E; [|eauto].
  exfalso. apply H. now exists sym.
Qed.

Lemma framesLoop_step (r : Report) (outputHtml : bool) (pp : ProgramPoint)
  (j : nat) :
  framesLoop r outputHtml pp (S j) =
  bind (lift (at_index (Frames pp) (Z.of_nat j))) (fun idx =>
    bind (lift (GetFrame r idx)) (fun frame =>
      bind (print (PrintFrame (if outputHtml then Html.EscapeString frame
                               else frame)))
           (fun _ => framesLoop r outputHtml pp j))).
Proof. reflexivity. Qed.

(** The descending loop prints the frames after the last one that does
    not resolve, last first, and dies on that one. *)
Lemma framesLoop_dies (r : Report) (outputHtml : bool) (pp : ProgramPoint)
  (before : list Z) (f : Z) (p : panic) :
  GetFrame r f = Panic p ->
  forall after tail,
    Frames pp = before ++ f :: after ++ tail ->
    Forall (resolves r) after ->
    framesLoop r outputHtml pp
      (S (List.length before + List.length after)) =
    (map (frameLine outputHtml) (rev (map (symbol r) after)),
     Failed (Panicked p)).
Proof.
  intros Hp. induction after as [|x after IH] using rev_ind;
    intros tail E Hall.
  - cbn [List.length]. rewrite Nat.add_0_r, framesLoop_step.
    rewrite (at_index_of_nat _ _ f)
      by (rewrite E, nth_error_app2, Nat.sub_diag by lia; reflexivity).
    cbn [lift]. rewrite bind_ret, Hp. reflexivity.
  - apply Forall_app in Hall as [Hall Hx]. apply Forall_inv in Hx.
    rewrite length_app. cbn [List.length].
    replace (S (List.length before + (List.length after + 1)))
      with (S (S (List.length before + List.length after))) by lia.
    rewrite framesLoop_step.
    rewrite (at_index_of_nat _ _ x).
    + cbn [lift]. rewrite bind_ret, (symbol_resolves _ _ Hx). cbn [lift].
      rewrite bind_ret, bind_print.
      rewrite (IH (x :: tail)); [|now rewrite E, <- app_assoc|exact Hall].
      rewrite map_app, rev_app_distr. reflexivity.
    + rewrite E.
      replace (before ++ f :: (after ++ [x]) ++ tail)
        with ((before ++ f :: after) ++ x :: tail)
        by (repeat rewrite <- app_assoc; reflexivity).
      rewrite nth_error_app2 by (rewrite length_app; cbn; lia).
      rewrite length_app. cbn [List.length].
      replace (S (List.length before + List.length after)
               - (List.length before + S (List.length after)))%nat
        with 0%nat by lia.
      reflexivity.
Qed.

(** The filter dies on the first frame that does not resolve, unless a
    keyword hits a frame in front of it. *)
Lemma shouldIgnore_dies (r : Report) (i : Z) (pp : ProgramPoint)
  (k : string) (keywords : list string) (before after : list Z) (f : Z)
  (p : panic) :
  at_index (ProgramPoints r) i = Ok pp ->
  Frames pp = before ++ f :: after ->
  Forall (resolves r) before ->
  GetFrame r f = Panic p ->
  shouldIgnore r i (k :: keywords) = Ok true \/
  shouldIgnore r i (k :: keywords) = Panic p.
Proof.
  intros Hat E Hb Hp.
  rewrite (shouldIgnore_firstHit r i pp _ Hat), E.
  cbn [tests flat_map]. rewrite map_app. cbn [map].
  rewrite <- app_assoc, firstHit_app, firstHit_resolved.
  - cbn [res_bind].
    destruct (existsb _ (map (fun f0 => (k, f0)) before)); [now left|].
    right. cbn [app firstHit]. now rewrite Hp.
  - apply Forall_forall. intros t Ht.
    apply in_map_iff in Ht as (f' & <- & Hin).
    rewrite Forall_forall in Hb. now apply Hb.
Qed.

(** C7 (as the code has it).  When a site that no keyword has matched
    has a frame that fails to resolve, because its index is outside the
    frame table or because its entry lacks the separator, [GetFrame]
    panics with Go's index-out-of-range error in both cases, and the
    panic ends the whole run.  Without keywords the output stops inside
    that site's block: its header, its stats line and the frames after
    the last faulty one, and then nothing, no later site and no closing.
    With keywords the filter meets the first faulty frame and the output
    stops before the site. *)
Theorem resolution_failure_aborts_render (r : Report)
  (keywords : list string) (outputHtml : bool)
  (pre post : list ProgramPoint) (pp : ProgramPoint)
  (out : list event) (c : Z) :
  Version r = dhatVersion ->
  ProgramPoints r = pre ++ pp :: post ->
  sitesLoop r keywords outputHtml 0 pre 1 = (out, Done c) ->
  shouldIgnore r (Z.of_nat (List.length pre)) keywords <> Ok true ->
  Exists (fun f => ~ resolves r f) (Frames pp) ->
  exists before f after p,
    Frames pp = before ++ f :: after /\
    GetFrame r f = Panic p /\
    ((p = IndexOutOfRange f (List.length (FramesTable r)) /\
      (f < 0 \/ Z.of_nat (List.length (FramesTable r)) <= f)) \/
     (p = IndexOutOfRange 1 1 /\
      exists entry, at_index (FramesTable r) f = Ok entry /\
                    Contains entry frameSep = false)) /\
    ((keywords = [] /\ Forall (resolves r) after /\
      render r keywords outputHtml =
        (preamble r outputHtml ++ out
         ++ [if outputHtml then PrintSummary c else PrintBanner c;
             PrintStats (TotalBytes pp) (TotalBlocks pp)]
         ++ (if outputHtml then [PrintFramesOpen] else [])
         ++ map (frameLine outputHtml) (rev (map (symbol r) after)),
         Failed (Panicked p))) \/
     (keywords <> [] /\ Forall (resolves r) before /\
      render r keywords outputHtml =
        (preamble r outputHtml ++ out, Failed (Panicked p)))).
Proof.
  intros Hv Hpps Hpre Hs Hex.
  assert (Hat : at_index (ProgramPoints r) (Z.of_nat (List.length pre))
                = Ok pp).
  { apply at_index_of_nat. rewrite Hpps, nth_error_app2 by lia.
    now rewrite Nat.sub_diag. }
  destruct keywords as [|k keywords].
  - destruct (split_last_unresolved r _ Hex) as (before & f & after & E & Hf & Ha).
    destruct (unresolved_Panic r f Hf) as [p Hp].
    exists before, f, after, p.
    split; [exact E|]. split; [exact Hp|].
    split; [now apply GetFrame_Panic|].
    left. split; [reflexivity|]. split; [exact Ha|].
    apply (render_site_failure r [] outputHtml pre post pp out _ c); auto.
    unfold siteBody. cbn [shouldIgnore lift].
    rewrite bind_ret, !bind_print.
    assert (Hloop : framesLoop r outputHtml pp (List.length (Frames pp)) =
              (map (frameLine outputHtml) (rev (map (symbol r) after)),
               Failed (Panicked p))).
    { rewrite E at 1. rewrite length_app. cbn [List.length].
      rewrite Nat.add_succ_r.
      apply (framesLoop_dies r outputHtml pp before f p Hp after []);
        [now rewrite app_nil_r | exact Ha]. }
    destruct outputHtml; cbn [when]; rewrite ?bind_print, ?bind_ret, Hloop;
      reflexivity.
  - destruct (split_first_unresolved r _ Hex)
      as (before & f & after & E & Hf & Hb).
    destruct (unresolved_Panic r f Hf) as [p Hp].
    exists before, f, after, p.
    split; [exact E|]. split; [exact Hp|].
    split; [now apply GetFrame_Panic|].
    right. split; [discriminate|]. split; [exact Hb|].
    destruct (shouldIgnore_dies r _ pp k keywords before after f p
                Hat E Hb Hp) as [Hhit|Hdie]; [contradiction|].
    now apply (shouldIgnore_panic_aborts_render r _ outputHtml pre post pp
                 out c p).
Qed.

Lemma resolution_failure_aborts_render_witness :
  exists before f after p,
    [1; 0] = before ++ f :: after /\
    GetFrame reportBroken f = Panic p /\
    ((p = IndexOutOfRange f 2 /\ (f < 0 \/ 2 <= f)) \/
     (p = IndexOutOfRange 1 1 /\
      exists entry, at_index (FramesTable reportBroken) f = Ok entry /\
                    Contains entry frameSep = false)) /\
    (([] = @nil string /\ Forall (resolves reportBroken) after /\
      render reportBroken [] false =
        (preamble reportBroken false
         ++ [PrintBanner 1; PrintStats 100 1; PrintFrame "main"]
         ++ [PrintBanner 2; PrintStats 64 2]
         ++ []
         ++ map (frameLine false) (rev (map (symbol reportBroken) after)),
         Failed (Panicked p))) \/
     ([] <> @nil string /\ Forall (resolves reportBroken) before /\
      render reportBroken [] false =
        (preamble reportBroken false
         ++ [PrintBanner 1; PrintStats 100 1; PrintFrame "main"],
         Failed (Panicked p)))).
Proof.
  apply (resolution_failure_aborts_render reportBroken [] false
           [mkSite 100 1 [0]] [mkSite 8 1 [0]] (mkSite 64 2 [1; 0])
           [PrintBanner 1; PrintStats 100 1; PrintFrame "main"] 2).
  - reflexivity.
  - reflexivity.
  - reflexivity.
  - discriminate.
  - apply Exists_cons_hd. intros [sym H]. vm_compute in H. discriminate.
Defined.

(** C7 as stated fails: an index outside the frame table and an entry
    without separator end in the very same panic, so no reading of the
    failure tells an index error from a format error. *)
Lemma resolution_failures_indistinguishable :
  GetFrame reportNoSep 1 = Panic (IndexOutOfRange 1 1) /\
  GetFrame reportNoSep 0 = Panic (IndexOutOfRange 1 1) /\
  ~ (exists kind : panic -> errorKind,
       forall (r : Report) (f : Z),
         (f < 0 \/ Z.of_nat (List.length (FramesTable r)) <= f ->
          exists p, GetFrame r f = Panic p /\ kind p = IndexError) /\
         (forall entry, at_index (FramesTable r) f = Ok entry ->
                        Contains entry frameSep = false ->
          exists p, GetFrame r f = Panic p /\ kind p = FormatError)).
Proof.
  split; [reflexivity|]. split; [reflexivity|].
  intros [kind H].
  destruct (H reportNoSep 1) as [H1 _].
  destruct (H reportNoSep 0) as [_ H0].
  destruct H1 as (p1 & E1 & K1); [right; simpl; lia|].
  destruct (H0 "nosep"%string) as (p0 & E0 & K0); [reflexivity | reflexivity|].
  vm_compute in E1, E0.
  injection E1 as <-. injection E0 as <-. congruence.
Qed.

(** ** Sites without frames *)





(** ** Monotonicity of the filter *)

Lemma siteMatches_incl (r : Report) (pp : ProgramPoint)
  (K K' : list string) :
  incl K K' -> siteMatches r pp K = true -> siteMatches r pp K' = true.
Proof.
  intros Hincl H. unfold siteMatches in *.
  apply existsb_exists in H as (k & Hk & H).
  apply existsb_exists. exists k. split; [now apply Hincl | exact H].
Qed.

Lemma filter_subseq {A : Type} (p q : A -> bool) (l : list A) :
  (forall x, p x = true -> q x = true) ->
  subseq (filter p l) (filter q l).
Proof.
  intros H. induction l as [|x l IH]; cbn [filter]; [constructor|].
  destruct (p x) eqn:Hp.
  - rewrite (H x Hp). now constructor.
  - destruct (q x); [now constructor | exact IH].
Qed.

(** C10.  On a site that satisfies the invariants, a longer keyword list
    ignores whatever a shorter one does; so, on a report that satisfies
    them, the sites shown with the longer list are among those shown
    with the shorter one, in the same order. *)
Theorem shouldIgnore_monotone (r : Report) (K K' : list string) :
  incl K K' ->
  (forall i pp,
     at_index (ProgramPoints r) i = Ok pp -> siteOk r pp = true ->
     shouldIgnore r i K = Ok true -> shouldIgnore r i K' = Ok true) /\
  (validReport r = true -> subseq (kept r K') (kept r K)).
Proof.
  intros Hincl. split.
  - intros i pp Hat Hok.
    rewrite !(shouldIgnore_valid r i pp _ Hat Hok).
    intros [= H]. now rewrite (siteMatches_incl r pp K K' Hincl H).
  - intros Hvalid. rewrite !kept_filter by exact Hvalid.
    apply filter_subseq. intros pp H.
    apply negb_true_iff in H. apply negb_true_iff.
    destruct (siteMatches r pp K) eqn:E; [|reflexivity].
    now rewrite (siteMatches_incl r pp K K' Hincl E) in H.
Qed.

Lemma shouldIgnore_monotone_witness :
  shouldIgnore reportThreeSites 1 ["zzz"; "a<b"; "main"]%string = Ok true /\
  subseq (kept reportThreeSites ["zzz"; "a<b"; "main"]%string)
         (kept reportThreeSites ["a<b"]%string).
Proof.
  destruct (shouldIgnore_monotone reportThreeSites
              ["a<b"]%string ["zzz"; "a<b"; "main"]%string) as [H1 H2].
  - intros k [<-|[]]. right. left. reflexivity.
  - split.
    + apply (H1 1 (mkSite 64 2 [2; 1])); reflexivity.
    + apply H2. reflexivity.
Defined.

(** * Further properties of the code *)

(** ** Frame resolution *)

(** X7.  [GetFrame] returns exactly when the index is within the frame table
    and the entry there contains the separator; otherwise it panics, on
    the table for a bad index and on the pieces of the split for an
    entry without separator. *)
Theorem GetFrame_returns_iff (r : Report) (i : Z) :
  ((exists sym, GetFrame r i = Ok sym) <->
   (0 <= i < Z.of_nat (List.length (FramesTable r)) /\
    exists entry, nth_error (FramesTable r) (Z.to_nat i) = Some entry /\
                  Contains entry frameSep = true)) /\
  (i < 0 \/ Z.of_nat (List.length (FramesTable r)) <= i ->
   GetFrame r i = Panic (IndexOutOfRange i (List.length (FramesTable r)))) /\
  (forall entry, 0 <= i ->
     nth_error (FramesTable r) (Z.to_nat i) = Some entry ->
     Contains entry frameSep = false ->
     GetFrame r i = Panic (IndexOutOfRange 1 1)).
Proof.
  split; [|split].
  - fold (resolves r i). rewrite <- frameOk_resolves. unfold frameOk.
    rewrite andb_true_iff, Z.leb_le. split.
    + intros [Hi H].
      destruct (nth_error (FramesTable r) (Z.to_nat i)) as [entry|] eqn:Hn;
        [|discriminate].
      assert (Z.to_nat i < List.length (FramesTable r))%nat
        by (apply nth_error_Some; congruence).
      split; [lia | eauto].
    + intros [Hi (entry & Hn & Hc)]. rewrite Hn. split; [lia | exact Hc].
  - apply GetFrame_out_of_bounds.
  - intros entry Hi Hn Hc. apply (GetFrame_no_separator r i entry); auto.
    apply at_index_Ok. auto.
Qed.

Lemma at_index_In {A : Type} (l : list A) (i : Z) (a : A) :
  at_index l i = Ok a -> In a l.
Proof.
  intros H. apply at_index_Ok in H as [_ H]. eapply nth_error_In; eauto.
Qed.

Lemma GetFrame_no_separator_in_symbol (r : Report) (i : Z) (sym : string) :
  GetFrame r i = Ok sym -> Contains sym frameSep = false.
Proof.
  unfold GetFrame. intros H.
  destruct (at_index (FramesTable r) i) as [entry|p]; [|discriminate].
  simpl in H. apply at_index_In in H.
  destruct (Split_spec frameSep frameSep_nonempty entry) as [_ Hall].
  rewrite Forall_forall in Hall. now apply Hall.
Qed.

(** X8.  A resolved symbol is a part of its frame-table entry that starts
    right after the first separator, and it never contains the
    separator itself. *)
Theorem GetFrame_symbol_is_piece (r : Report) (i : Z) (sym : string) :
  GetFrame r i = Ok sym ->
  Contains sym frameSep = false /\
  exists entry verb rest,
    nth_error (FramesTable r) (Z.to_nat i) = Some entry /\
    entry = (verb ++ frameSep ++ sym ++ rest)%string /\
    Contains verb frameSep = false.
Proof.
  intros H. split; [exact (GetFrame_no_separator_in_symbol r i sym H)|].
  unfold GetFrame in H.
  destruct (at_index (FramesTable r) i) as [entry|p] eqn:He; [|discriminate].
  apply at_index_Ok in He as [_ Hn]. simpl in H.
  rewrite Split_second in H. unfold betweenSeps, afterFirstSep in H.
  destruct (Index entry frameSep) as [m|] eqn:Hm; [|discriminate].
  destruct (Index_Some _ _ _ Hm) as [E _].
  assert (Hverb : Contains (take m entry) frameSep = false).
  { destruct (Split_spec frameSep frameSep_nonempty entry) as [_ Hall].
    rewrite (Split_unfold entry _ frameSep_nonempty), Hm in Hall.
    now apply Forall_inv in Hall. }
  set (tail := drop (m + String.length frameSep) entry) in *.
  destruct (Index tail frameSep) as [m'|] eqn:Hm'.
  - injection H as <-. destruct (Index_Some _ _ _ Hm') as [E' _].
    exists entry, (take m entry),
      (frameSep ++ drop (m' + String.length frameSep) tail)%string.
    split; [exact Hn|]. split; [|exact Hverb].
    rewrite <- E'. exact E.
  - injection H as <-.
    exists entry, (take m entry), EmptyString.
    split; [exact Hn|]. split; [|exact Hverb].
    rewrite E at 1. f_equal. f_equal.
    clear. induction tail; simpl; congruence.
Qed.

Lemma GetFrame_symbol_is_piece_witness :
  Contains "foo" frameSep = false /\
  exists entry verb rest,
    nth_error (FramesTable reportTwoSeps) 0 = Some entry /\
    entry = (verb ++ frameSep ++ "foo" ++ rest)%string /\
    Contains verb frameSep = false.
Proof.
  apply (GetFrame_symbol_is_piece reportTwoSeps 0 "foo"). reflexivity.
Defined.

(** ** The filter *)

Lemma Contains_trans (a b c : string) :
  Contains a b = true -> Contains b c = true -> Contains a c = true.
Proof.
  rewrite !Contains_iff.
  intros (pre & post & ->) (pre' & post' & ->).
  exists (pre ++ pre')%string, (post' ++ post)%string.
  now rewrite !append_assoc.
Qed.

Lemma shouldIgnore_true_site (r : Report) (i : Z) (keywords : list string) :
  shouldIgnore r i keywords = Ok true ->
  exists pp, at_index (ProgramPoints r) i = Ok pp /\
             keywordInSite r pp keywords.
Proof.
  intros H. destruct (at_index (ProgramPoints r) i) as [pp|p] eqn:Hpp.
  - exists pp. split; [reflexivity|].
    apply hitReached_keywordInSite, firstHit_true.
    now rewrite <- (shouldIgnore_firstHit r i pp).
  - destruct keywords as [|k ks]; [discriminate|].
    cbn [shouldIgnore] in H. unfold ProgramPointHasFrame in H.
    rewrite Hpp in H. discriminate.
Qed.

(** X9.  Keywords that contain the separator [": "] never make a site
    ignored, on any report: no resolved symbol can contain them. *)
Theorem keywords_with_separator_never_match (r : Report) (i : Z)
  (keywords : list string) :
  Forall (fun k => Contains k frameSep = true) keywords ->
  shouldIgnore r i keywords <> Ok true.
Proof.
  intros Hall H.
  apply shouldIgnore_true_site in H
    as (pp & _ & k & f & sym & Hk & _ & Hf & Hc).
  rewrite Forall_forall in Hall.
  pose proof (Contains_trans _ _ _ Hc (Hall k Hk)) as Hsep.
  rewrite (GetFrame_no_separator_in_symbol r f sym Hf) in Hsep.
  discriminate.
Qed.

Lemma keywords_with_separator_never_match_witness :
  shouldIgnore reportTwoSeps 0 ["foo: bar"; "at: foo"]%string <> Ok true.
Proof.
  apply keywords_with_separator_never_match.
  repeat constructor.
Defined.

(** X10.  A site index outside [ProgramPoints] makes [shouldIgnore] panic on
    the first keyword; without keywords the report is not looked at and
    the answer is false. *)
Theorem shouldIgnore_site_out_of_range (r : Report) (i : Z) (k : string)
  (rest : list string) :
  i < 0 \/ Z.of_nat (List.length (ProgramPoints r)) <= i ->
  shouldIgnore r i (k :: rest)
    = Panic (IndexOutOfRange i (List.length (ProgramPoints r))) /\
  ProgramPointHasFrame r i k
    = Panic (IndexOutOfRange i (List.length (ProgramPoints r))) /\
  shouldIgnore r i [] = Ok false.
Proof.
  intros H.
  assert (E : at_index (ProgramPoints r) i =
              Panic (IndexOutOfRange i (List.length (ProgramPoints r))))
    by (apply at_index_Panic; auto).
  cbn [shouldIgnore]. unfold ProgramPointHasFrame. rewrite E. auto.
Qed.

Lemma shouldIgnore_site_out_of_range_witness :
  shouldIgnore reportExample 1 ["main"]%string = Panic (IndexOutOfRange 1 1) /\
  shouldIgnore reportExample (-1) ["main"]%string
    = Panic (IndexOutOfRange (-1) 1).
Proof.
  split.
  - apply (shouldIgnore_site_out_of_range reportExample 1 "main" []).
    right. simpl. lia.
  - apply (shouldIgnore_site_out_of_range reportExample (-1) "main" []).
    left. lia.
Defined.

(** ** The rendering loop on any report *)

(** What the descending loop over a site's frames can do: print
    resolved symbols, and end or die on a panic. *)
Lemma framesLoop_shape (r : Report) (outputHtml : bool) (pp : ProgramPoint)
  (n : nat) :
  exists syms,
    fst (framesLoop r outputHtml pp n) = map (frameLine outputHtml) syms /\
    Forall (fun sym => exists f, GetFrame r f = Ok sym) syms /\
    (snd (framesLoop r outputHtml pp n) = Done tt \/
     exists p, snd (framesLoop r outputHtml pp n) = Failed (Panicked p)).
Proof.
  induction n as [|j (syms & E & Hall & Ho)].
  - exists []. cbn. auto.
  - cbn [framesLoop].
    destruct (at_index (Frames pp) (Z.of_nat j)) as [idx|p]; cbn [lift].
    + rewrite bind_ret.
      destruct (GetFrame r idx) as [sym|p] eqn:Hg; cbn [lift].
      * rewrite bind_ret, bind_print. cbn [fst snd].
        exists (sym :: syms). split; [cbn [map]; now rewrite E|].
        split; [constructor; eauto | exact Ho].
      * exists []. rewrite bind_fail. cbn. eauto.
    + exists []. rewrite bind_fail. cbn. eauto.
Qed.

(** One round of the loop over the sites, case by case. *)
Lemma siteBody_shape (r : Report) (keywords : list string)
  (outputHtml : bool) (i : nat) (pp : ProgramPoint) (c : Z) :
  let fl := framesLoop r outputHtml pp (List.length (Frames pp)) in
  siteBody r keywords outputHtml i pp c =
  match shouldIgnore r (Z.of_nat i) keywords with
  | Panic p => ([], Failed (Panicked p))
  | Ok true => ([], Done c)
  | Ok false =>
      ([if outputHtml then PrintSummary c else PrintBanner c;
        PrintStats (TotalBytes pp) (TotalBlocks pp)]
       ++ (if outputHtml then [PrintFramesOpen] else [])
       ++ fst fl
       ++ match snd fl with
          | Done _ => if outputHtml then [PrintDetailsClose] else []
          | Failed _ => []
          end,
       match snd fl with
       | Done _ => Done (c + 1)
       | Failed f => Failed f
       end)
  end.
Proof.
  intros fl. unfold siteBody.
  destruct (shouldIgnore r (Z.of_nat i) keywords) as [[|]|p];
    [reflexivity | | reflexivity].
  cbn [lift]. rewrite bind_ret, !bind_print. fold fl.
  destruct fl as [fo [[]|f]]; destruct outputHtml; cbn [when fst snd];
    rewrite ?bind_print, ?bind_ret, ?bind_Done, ?bind_Failed;
    cbn [fst snd ret print app]; rewrite ?app_nil_r; reflexivity.
Qed.

(** [render], case by case. *)
Lemma render_shape (r : Report) (keywords : list string) (outputHtml : bool) :
  let sl := sitesLoop r keywords outputHtml 0 (ProgramPoints r) 1 in
  render r keywords outputHtml =
  if Version r =? dhatVersion then
    (preamble r outputHtml ++ fst sl
     ++ match snd sl with
        | Done _ => closing outputHtml
        | Failed _ => []
        end,
     match snd sl with
     | Done _ => Done tt
     | Failed f => Failed f
     end)
  else ([], Failed (Error (versionError (Version r)))).
Proof.
  intros sl. destruct (Z.eqb_spec (Version r) dhatVersion) as [Hv|Hv].
  - rewrite (render_version_ok _ _ _ Hv). fold sl.
    destruct sl as [out [c|f]]; rewrite !bind_Done; cbn [fst snd];
      rewrite ?bind_Done, ?bind_Failed; cbn [fst snd];
      rewrite ?app_nil_r; reflexivity.
  - unfold render. apply Z.eqb_neq in Hv. now rewrite Hv.
Qed.

(** An event property that each print statement of the loop satisfies
    holds of everything the loop prints. *)
Lemma sitesLoop_Forall (Q : event -> Prop) (r : Report)
  (keywords : list string) (outputHtml : bool) :
  (forall c, Q (if outputHtml then PrintSummary c else PrintBanner c)) ->
  (forall tb tbk, Q (PrintStats tb tbk)) ->
  (outputHtml = true -> Q PrintFramesOpen /\ Q PrintDetailsClose) ->
  (forall f sym, GetFrame r f = Ok sym -> Q (frameLine outputHtml sym)) ->
  forall rest i c,
    Forall Q (fst (sitesLoop r keywords outputHtml i rest c)).
Proof.
  intros Hhdr Hstats Hhtml Hframe.
  induction rest as [|pp rest IH]; intros i c; [constructor|].
  cbn [sitesLoop].
  assert (Hbody : Forall Q (fst (siteBody r keywords outputHtml i pp c))).
  { rewrite siteBody_shape.
    destruct (shouldIgnore r (Z.of_nat i) keywords) as [[|]|p];
      try constructor; [apply Hhdr|].
    constructor; [apply Hstats|].
    destruct (framesLoop_shape r outputHtml pp (List.length (Frames pp)))
      as (syms & E & Hall & _).
    rewrite E. rewrite !Forall_app; repeat split.
    - destruct outputHtml; [constructor; [now apply Hhtml|]|]; constructor.
    - apply Forall_forall. intros e He.
      apply in_map_iff in He as (sym & <- & Hin).
      rewrite Forall_forall in Hall. destruct (Hall sym Hin) as [f Hf].
      now apply (Hframe f).
    - destruct (snd (framesLoop r outputHtml pp _)); [|constructor].
      destruct outputHtml; [constructor; [now apply Hhtml|]|]; constructor. }
  destruct (siteBody r keywords outputHtml i pp c) as [out [c'|f]].
  - rewrite bind_Done. cbn [fst] in *. apply Forall_app. split; [exact Hbody|].
    apply IH.
  - exact Hbody.
Qed.

(** The loop prints the counters [c], [c + 1], ... in a row, at most one
    per site, and can only end normally, with the next counter, or on a
    panic. *)
Lemma sitesLoop_counters (r : Report) (keywords : list string)
  (outputHtml : bool) :
  forall rest i c,
    exists k, (k <= List.length rest)%nat /\
      counters (fst (sitesLoop r keywords outputHtml i rest c))
        = map (fun j => c + Z.of_nat j) (seq 0 k) /\
      (snd (sitesLoop r keywords outputHtml i rest c) = Done (c + Z.of_nat k)
       \/ exists p, snd (sitesLoop r keywords outputHtml i rest c)
                    = Failed (Panicked p)).
Proof.
  induction rest as [|pp rest IH]; intros i c.
  - exists 0%nat. cbn. rewrite Z.add_0_r. auto.
  - cbn [sitesLoop]. rewrite siteBody_shape.
    destruct (shouldIgnore r (Z.of_nat i) keywords) as [[|]|p].
    + rewrite bind_Done. destruct (IH (S i) c) as (k & Hk & Hc & Ho).
      exists k. cbn [fst snd app List.length]. auto.
    + destruct (framesLoop_shape r outputHtml pp (List.length (Frames pp)))
        as (syms & E & _ & [Ho|[p Ho]]); rewrite E, Ho.
      * rewrite bind_Done. destruct (IH (S i) (c + 1)) as (k & Hk & Hc & Hd).
        exists (S k). cbn [fst snd List.length]. split; [lia|]. split.
        -- rewrite !counters_app, counters_frames, Hc.
           assert (H1 : counters (if outputHtml then [PrintFramesOpen] else [])
                        = []) by (now destruct outputHtml).
           assert (H2 : counters (if outputHtml then [PrintDetailsClose] else [])
                        = []) by (now destruct outputHtml).
           assert (H3 : counters
                     [if outputHtml then PrintSummary c else PrintBanner c;
                      PrintStats (TotalBytes pp) (TotalBlocks pp)] = [c])
             by (now destruct outputHtml).
           rewrite H1, H2, H3. cbn [app seq map]. rewrite Z.add_0_r.
           f_equal. rewrite <- seq_shift, map_map. apply map_ext.
           intros j. lia.
        -- replace (c + Z.of_nat (S k)) with (c + 1 + Z.of_nat k) by lia.
           exact Hd.
      * rewrite bind_Failed. exists 1%nat. cbn [fst snd List.length].
        split; [lia|]. split; [|eauto].
        rewrite !counters_app, counters_frames.
        assert (H1 : counters (if outputHtml then [PrintFramesOpen] else [])
                     = []) by (now destruct outputHtml).
        assert (H3 : counters
                  [if outputHtml then PrintSummary c else PrintBanner c;
                   PrintStats (TotalBytes pp) (TotalBlocks pp)] = [c])
          by (now destruct outputHtml).
        rewrite H1, H3. cbn. now rewrite Z.add_0_r.
    + rewrite bind_Failed. exists 0%nat. cbn [fst snd List.length].
      split; [lia|]. split; [reflexivity | eauto].
Qed.

(** X2.  Whatever the report, well formed or not, and however the run ends,
    the display counters that reach the output are 1, 2, ..., k with no
    gap and no repeat, for some k that is at most the number of program
    points. *)
Theorem counters_always_consecutive (r : Report) (keywords : list string)
  (outputHtml : bool) :
  exists k, (k <= List.length (ProgramPoints r))%nat /\
    counters (fst (render r keywords outputHtml))
      = map Z.of_nat (seq 1 k).
Proof.
  rewrite render_shape.
  destruct (Version r =? dhatVersion); [|exists 0%nat; split; [lia|reflexivity]].
  destruct (sitesLoop_counters r keywords outputHtml (ProgramPoints r) 0 1)
    as (k & Hk & Hc & _).
  exists k. split; [exact Hk|]. cbn [fst].
  rewrite !counters_app, Hc.
  assert (Hp : counters (preamble r outputHtml) = [])
    by (now destruct outputHtml).
  assert (Hcl : counters
            match snd (sitesLoop r keywords outputHtml 0 (ProgramPoints r) 1)
            with Done _ => closing outputHtml | Failed _ => [] end = []).
  { destruct (snd (sitesLoop r keywords outputHtml 0 (ProgramPoints r) 1));
      [now destruct outputHtml | reflexivity]. }
  rewrite Hp, Hcl, app_nil_r. cbn [app].
  rewrite <- seq_shift, map_map. apply map_ext. intros j. lia.
Qed.

(** X5.  In text mode none of the HTML print statements runs, on any report
    and however the run ends, and every frame line is a resolved symbol
    exactly as [GetFrame] returned it. *)
Theorem text_mode_prints_no_html (r : Report) (keywords : list string) :
  Forall (fun e => htmlOnly e = false) (fst (render r keywords false)) /\
  Forall (fun line => exists f, GetFrame r f = Ok line)
         (framesOf (fst (render r keywords false))).
Proof.
  set (Q := fun e => htmlOnly e = false /\
                     forall line, e = PrintFrame line ->
                                  exists f, GetFrame r f = Ok line).
  assert (H : Forall Q (fst (render r keywords false))).
  { rewrite render_shape.
    destruct (Version r =? dhatVersion); [|constructor]. cbn [fst].
    rewrite !Forall_app; repeat split.
    - repeat constructor; discriminate.
    - apply sitesLoop_Forall.
      + intros c. split; [reflexivity | discriminate].
      + intros tb tbk. split; [reflexivity | discriminate].
      + discriminate.
      + intros f sym Hf. split; [reflexivity|].
        intros line [= <-]. now exists f.
    - destruct (snd (sitesLoop r keywords false 0 (ProgramPoints r) 1));
        constructor. }
  rewrite Forall_forall in H. split; apply Forall_forall.
  - intros e He. now apply H.
  - intros line Hl. unfold framesOf in Hl.
    apply in_flat_map in Hl as (e & He & Hin).
    destruct e; try contradiction. destruct Hin as [<-|[]].
    now apply (H _ He).
Qed.

(** X6.  In HTML mode every frame line that reaches the output, on any
    report and however the run ends, is the escaped form of a resolved
    symbol and holds no raw '<', '>' or quote. *)
Theorem html_mode_frames_always_escaped (r : Report)
  (keywords : list string) :
  Forall (fun line =>
            (exists f sym, GetFrame r f = Ok sym /\
                           line = Html.EscapeString sym) /\
            forall ch, htmlSpecial ch = true -> ch <> "&"%char ->
                       hasByte ch line = false)
         (framesOf (fst (render r keywords true))).
Proof.
  set (Q := fun e => forall line, e = PrintFrame line ->
                     exists f sym, GetFrame r f = Ok sym /\
                                   line = Html.EscapeString sym).
  assert (H : Forall Q (fst (render r keywords true))).
  { rewrite render_shape.
    destruct (Version r =? dhatVersion); [|constructor]. cbn [fst].
    rewrite !Forall_app; repeat split.
    - repeat constructor; discriminate.
    - apply sitesLoop_Forall.
      + intros c line. discriminate.
      + intros tb tbk line. discriminate.
      + intros _. split; intros line; discriminate.
      + intros f sym Hf line [= <-]. now exists f, sym.
    - destruct (snd (sitesLoop r keywords true 0 (ProgramPoints r) 1));
        repeat constructor; discriminate. }
  rewrite Forall_forall in H. apply Forall_forall.
  intros line Hl. unfold framesOf in Hl.
  apply in_flat_map in Hl as (e & He & Hin).
  destruct e; try contradiction. destruct Hin as [<-|[]].
  destruct (H _ He frame eq_refl) as (f & sym & Hf & ->).
  split; [now exists f, sym|].
  intros ch Hch Hamp. now apply EscapeString_no_markup.
Qed.

(** ** The runs that complete *)

Lemma sitesLoop_fine (r : Report) (keywords : list string)
  (outputHtml : bool) :
  forall rest i c,
    fineFrom r keywords i rest = true ->
    sitesLoop r keywords outputHtml i rest c =
    (flat_map (fun np => siteBlock r outputHtml (fst np) (snd np))
              (numberFrom c (keptFrom r keywords i rest)),
     Done (c + Z.of_nat (List.length (keptFrom r keywords i rest)))).
Proof.
  induction rest as [|pp rest IH]; intros i c Hfine.
  - cbn. now rewrite Z.add_0_r.
  - cbn [fineFrom] in Hfine. apply andb_true_iff in Hfine as [Hpp Hrest].
    unfold siteFine in Hpp. cbn [sitesLoop keptFrom]. unfold ignoredAt.
    destruct (shouldIgnore r (Z.of_nat i) keywords) as [[|]|p] eqn:Hs;
      [| |discriminate].
    + rewrite (siteBody_ignored _ _ _ _ _ _ Hs), bind_Done.
      rewrite (IH (S i) c Hrest). reflexivity.
    + rewrite (siteBody_kept _ _ _ _ _ _ Hs Hpp), bind_Done.
      rewrite (IH (S i) (c + 1) Hrest).
      cbn [fst snd numberFrom flat_map List.length]. f_equal. f_equal. lia.
Qed.

Lemma siteOk_false_Exists (r : Report) (pp : ProgramPoint) :
  siteOk r pp = false -> Exists (fun f => ~ resolves r f) (Frames pp).
Proof.
  unfold siteOk. induction (Frames pp) as [|f fs IH]; [discriminate|].
  cbn [forallb]. intros H. apply andb_false_iff in H as [H|H].
  - apply Exists_cons_hd. intros Hr. apply frameOk_resolves in Hr. congruence.
  - apply Exists_cons_tl. now apply IH.
Qed.

Lemma sitesLoop_Done_fine (r : Report) (keywords : list string)
  (outputHtml : bool) :
  forall rest i c out c',
    sitesLoop r keywords outputHtml i rest c = (out, Done c') ->
    fineFrom r keywords i rest = true.
Proof.
  induction rest as [|pp rest IH]; intros i c out c' H; [reflexivity|].
  cbn [sitesLoop] in H. cbn [fineFrom]. unfold siteFine.
  destruct (siteBody r keywords outputHtml i pp c) as [o1 [c1|f]] eqn:Hb;
    [|discriminate].
  rewrite bind_Done in H.
  destruct (sitesLoop r keywords outputHtml (S i) rest c1) as [o2 [c2|f]] eqn:Hl;
    [|discriminate].
  rewrite (IH _ _ _ _ Hl), andb_true_r.
  rewrite siteBody_shape in Hb.
  destruct (shouldIgnore r (Z.of_nat i) keywords) as [[|]|p];
    [reflexivity | | discriminate].
  destruct (siteOk r pp) eqn:Hok; [reflexivity|]. exfalso.
  destruct (framesLoop_unresolved r outputHtml pp (List.length (Frames pp)))
    as (fo & f & p & Hfl & _); [lia | |].
  - rewrite firstn_all. now apply siteOk_false_Exists.
  - rewrite Hfl in Hb. discriminate.
Qed.

(** X1.  A run of [render] completes exactly when the version is 2 and every
    site is either ignored or has all its frames resolve: a faulty site
    does no harm when a keyword matches it before the fault is reached.
    The output is then the preamble, the blocks of the sites not ignored
    numbered from 1, and the closing. *)
Theorem render_completes_iff (r : Report) (keywords : list string)
  (outputHtml : bool) :
  let expected :=
    preamble r outputHtml
    ++ flat_map (fun np => siteBlock r outputHtml (fst np) (snd np))
                (numberFrom 1 (kept r keywords))
    ++ closing outputHtml in
  ((exists out, render r keywords outputHtml = (out, Done tt)) <->
   (Version r = dhatVersion /\
    fineFrom r keywords 0 (ProgramPoints r) = true)) /\
  (forall out, render r keywords outputHtml = (out, Done tt) ->
               out = expected).
Proof.
  intros expected.
  assert (Hfwd : forall out, render r keywords outputHtml = (out, Done tt) ->
            Version r = dhatVersion /\
            fineFrom r keywords 0 (ProgramPoints r) = true).
  { intros out H. rewrite render_shape in H.
    destruct (Z.eqb_spec (Version r) dhatVersion) as [Hv|Hv]; [|discriminate].
    split; [exact Hv|].
    destruct (sitesLoop r keywords outputHtml 0 (ProgramPoints r) 1)
      as [o [c|f]] eqn:Hl; [|discriminate].
    exact (sitesLoop_Done_fine _ _ _ _ _ _ _ _ Hl). }
  assert (Hbwd : Version r = dhatVersion ->
            fineFrom r keywords 0 (ProgramPoints r) = true ->
            render r keywords outputHtml = (expected, Done tt)).
  { intros Hv Hfine. rewrite (render_version_ok _ _ _ Hv).
    rewrite (sitesLoop_fine r keywords outputHtml _ 0 1 Hfine).
    rewrite !bind_Done. reflexivity. }
  split.
  - split; [intros [out H]; now apply (Hfwd out) |].
    intros [Hv Hfine]. exists expected. now apply Hbwd.
  - intros out H. destruct (Hfwd out H) as [Hv Hfine].
    rewrite (Hbwd Hv Hfine) in H. now injection H.
Qed.

(** ** Errors and output *)

Lemma sitesLoop_no_error (r : Report) (keywords : list string)
  (outputHtml : bool) (rest : list ProgramPoint) (i : nat) (c : Z)
  (msg : string) :
  snd (sitesLoop r keywords outputHtml i rest c) <> Failed (Error msg).
Proof.
  destruct (sitesLoop_counters r keywords outputHtml rest i c)
    as (k & _ & _ & [H|[p H]]); rewrite H; discriminate.
Qed.

Lemma render_error_no_output (r : Report) (keywords : list string)
  (outputHtml : bool) (out : list event) (msg : string) :
  render r keywords outputHtml = (out, Failed (Error msg)) -> out = [].
Proof.
  rewrite render_shape.
  destruct (Version r =? dhatVersion); [|now intros [= <- _]].
  intros H. exfalso.
  apply (sitesLoop_no_error r keywords outputHtml (ProgramPoints r) 0 1 msg).
  destruct (snd (sitesLoop r keywords outputHtml 0 (ProgramPoints r) 1));
    [discriminate | now injection H as _ ->].
Qed.

(** X3.  A process that exits with status 1 has written nothing to standard
    output: every [error] that [mainErr] returns (flag error, wrong
    number of arguments, profile file, ignore file, report file,
    unsupported version) is returned before the first print statement,
    and once printing has begun a run can only complete or panic. *)
Theorem exit_1_means_no_output
  (ReadFile : string -> string + string)
  (decodeReport : string -> string + Report)
  (buildInfo : Build.Info) (createCpuProfile : option string)
  (parsed : flagParse) (line : string) :
  main ReadFile decodeReport buildInfo createCpuProfile parsed = Exit1 line ->
  fst (mainErrParsed ReadFile decodeReport buildInfo createCpuProfile parsed)
    = EmptyString /\
  exists msg,
    snd (mainErrParsed ReadFile decodeReport buildInfo createCpuProfile parsed)
      = Failed (Error msg) /\
    line = ("error: " ++ msg ++ Fmt.LF)%string.
Proof.
  unfold main.
  destruct (mainErrParsed ReadFile decodeReport buildInfo createCpuProfile
              parsed) as [out [[]|[msg|p]]] eqn:E; cbn [fst snd];
    try discriminate.
  intros [= <-]. split; [|now exists msg].
  unfold mainErrParsed in E.
  destruct parsed as [|err|ignoreFile outputHtml printVersion cpuProfile
                           memProfile args];
    [discriminate | now injection E | ].
  destruct printVersion; [discriminate|].
  destruct args as [|dhatFile [|a args]]; [now injection E | | now injection E].
  destruct (if cpuProfile then createCpuProfile else None);
    [now injection E|].
  destruct (mainErr ReadFile decodeReport ignoreFile outputHtml dhatFile)
    as [evs o] eqn:Hm.
  injection E as <- ->.
  unfold mainErr, parseReport in Hm.
  destruct (parseIgnoreFile ReadFile ignoreFile) as [e|ignoreList];
    [now injection Hm as <- _|].
  destruct (decodeReport dhatFile) as [e|report];
    [now injection Hm as <- _|].
  now rewrite (render_error_no_output _ _ _ _ _ Hm).
Qed.

Lemma exit_1_means_no_output_witness :
  fst (mainErrParsed (fun _ => inl "no such file"%string)
         (fun _ => inr reportExample)
         {| Build.GoVersion := "go1.22"; Build.MainVersion := "(devel)";
            Build.Settings := [] |}
         None
         (FlagOk "ignore.txt" true false false false ["dhat.out"%string]))
  = EmptyString.
Proof.
  eapply (exit_1_means_no_output _ _ _ _ _ _). reflexivity.
Defined.

(** ** Reading the ignore file again *)

Lemma TrimLeft_fixed (cutset t : string) :
  outsideCutset cutset (firstByte t) = true -> TrimLeft t cutset = t.
Proof.
  destruct t as [|c t]; [reflexivity|]. simpl. intros H.
  apply negb_true_iff in H. now rewrite H.
Qed.

Lemma TrimRight_fixed (cutset t : string) :
  outsideCutset cutset (lastByte t) = true -> TrimRight t cutset = t.
Proof.
  induction t as [|c t IH]; [reflexivity|].
  cbn [lastByte TrimRight]. destruct t as [|d t].
  - simpl. intros H. apply negb_true_iff in H. now rewrite H.
  - intros H. rewrite (IH H). reflexivity.
Qed.

Lemma Trim_fixed (cutset line : string) :
  Trim (Trim line cutset) cutset = Trim line cutset.
Proof.
  destruct (Trim_spec cutset line) as (pre & post & _ & _ & _ & Hf & Hl).
  unfold Trim at 1. rewrite (TrimRight_fixed _ _ Hl).
  now apply TrimLeft_fixed.
Qed.

Lemma Contains_part (pre t post sub : string) :
  Contains (pre ++ t ++ post) sub = false -> Contains t sub = false.
Proof.
  intros H. destruct (Contains t sub) eqn:E; [|reflexivity].
  assert (Ht : Contains (pre ++ t ++ post) t = true)
    by (apply Contains_iff; eauto).
  now rewrite (Contains_trans _ _ _ Ht E) in H.
Qed.

Lemma keywordsOf_no_newline (content kw : string) :
  In kw (keywordsOf content) -> Contains kw Fmt.LF = false.
Proof.
  unfold keywordsOf. intros H. apply filter_In in H as [H _].
  apply in_map_iff in H as (line & <- & Hline).
  assert (Hsep : Fmt.LF <> EmptyString) by discriminate.
  destruct (Split_spec Fmt.LF Hsep content) as [_ Hall].
  rewrite Forall_forall in Hall. specialize (Hall line Hline).
  destruct (Trim_spec trimCutset line) as (pre & post & E & _).
  rewrite E in Hall. exact (Contains_part _ _ _ _ Hall).
Qed.

Lemma Index_after_line (p rest : string) :
  Contains p Fmt.LF = false ->
  Index (p ++ Fmt.LF ++ rest) Fmt.LF = Some (String.length p).
Proof.
  unfold Contains. induction p as [|c p IH]; intros H.
  - reflexivity.
  - cbn [Index] in H.
    destruct (HasPrefix (String c p) Fmt.LF) eqn:Hp; [discriminate|].
    destruct (Index p Fmt.LF) eqn:Hi; [discriminate|].
    change ((String c p ++ Fmt.LF ++ rest)%string)
      with (String c (p ++ Fmt.LF ++ rest)%string).
    cbn [Index].
    assert (Hp' : HasPrefix (String c (p ++ Fmt.LF ++ rest)) Fmt.LF = false).
    { unfold Fmt.LF in *. cbn [HasPrefix] in *.
      now rewrite andb_true_r in *. }
    rewrite Hp', (IH eq_refl). reflexivity.
Qed.

Lemma Split_no_newline (p : string) :
  Contains p Fmt.LF = false -> Split p Fmt.LF = [p].
Proof.
  intros H. rewrite Split_unfold by discriminate.
  unfold Contains in H. now destruct (Index p Fmt.LF).
Qed.

Lemma take_line (a b : string) : take (String.length a) (a ++ b) = a.
Proof. induction a; simpl; congruence. Qed.

Lemma keywords_refilter (l : list string) :
  Forall (fun t => Trim t trimCutset = t) l ->
  filter keepLine (map (fun line => Trim line trimCutset) (filter keepLine l))
  = filter keepLine l.
Proof.
  induction l as [|x l IHl]; intros Hl; [reflexivity|].
  apply Forall_cons_iff in Hl as [Hx Hl]. cbn [filter].
  destruct (keepLine x) eqn:Hkx; [|now apply IHl].
  cbn [map filter]. rewrite Hx, Hkx. f_equal. now apply IHl.
Qed.

(** Lines without newline, joined by newlines and split again. *)
Lemma Split_concat_lines (p : string) (ps : list string) :
  Forall (fun l => Contains l Fmt.LF = false) (p :: ps) ->
  Split (String.concat Fmt.LF (p :: ps)) Fmt.LF = p :: ps.
Proof.
  revert p; induction ps as [|p' ps IH]; intros p H.
  - apply Split_no_newline. now apply Forall_inv in H.
  - apply Forall_cons_iff in H as [Hp H].
    change (String.concat Fmt.LF (p :: p' :: ps))
      with (p ++ Fmt.LF ++ String.concat Fmt.LF (p' :: ps))%string.
    rewrite Split_unfold by discriminate.
    rewrite (Index_after_line _ _ Hp), take_line.
    rewrite <- append_assoc, <- length_append, drop_append.
    now rewrite (IH p' H).
Qed.

(** X11.  Writing the keywords [parseIgnoreFile] returned one per line and
    reading that file gives the same keywords again; in particular no
    keyword contains a newline, and trimming and filtering leave them
    alone. *)
Theorem parseIgnoreFile_reread (ReadFile : string -> string + string)
  (file file' : string) (keywords : list string) :
  file <> EmptyString -> file' <> EmptyString ->
  parseIgnoreFile ReadFile file = inr keywords ->
  ReadFile file' = inr (String.concat Fmt.LF keywords) ->
  parseIgnoreFile ReadFile file' = inr keywords /\
  Forall (fun kw => Contains kw Fmt.LF = false) keywords.
Proof.
  intros Hf Hf' Hparse Hread'.
  assert (Hk : exists content, keywords = keywordsOf content).
  { unfold parseIgnoreFile in Hparse. destruct file; [congruence|].
    destruct (ReadFile _) as [e|content]; [discriminate|].
    injection Hparse as <-. exists content. unfold keywordsOf.
    now rewrite ignoreLoop_filter. }
  destruct Hk as [content ->].
  assert (Hnl : Forall (fun kw => Contains kw Fmt.LF = false)
                       (keywordsOf content))
    by (apply Forall_forall; intros kw; apply keywordsOf_no_newline).
  split; [|exact Hnl].
  unfold parseIgnoreFile. destruct file'; [congruence|].
  rewrite Hread', ignoreLoop_filter. cbn [app]. f_equal.
  destruct (keywordsOf content) as [|kw kws] eqn:Hkws; [reflexivity|].
  rewrite (Split_concat_lines kw kws Hnl), <- Hkws.
  unfold keywordsOf. apply keywords_refilter.
  apply Forall_forall. intros x Hx.
  apply in_map_iff in Hx as (line & <- & _). apply Trim_fixed.
Qed.

Lemma parseIgnoreFile_reread_witness :
  parseIgnoreFile twoIgnoreFiles "clean.txt" = inr ["foo"; "bar"]%string /\
  Forall (fun kw => Contains kw Fmt.LF = false) ["foo"; "bar"]%string.
Proof.
  apply (parseIgnoreFile_reread twoIgnoreFiles "ignore.txt" "clean.txt"
           ["foo"; "bar"]%string);
    [discriminate | discriminate | reflexivity | reflexivity].
Defined.

(** The report [reportLazy] breaks the invariants (frame index 7), yet
    its run completes when the keyword matches the faulty site first. *)
Lemma render_lazy_example :
  validReport reportLazy = false /\
  render reportLazy ["alloc"]%string false =
    (preamble reportLazy false
     ++ [PrintBanner 1; PrintStats 8 1; PrintFrame "main"],
     Done tt).
Proof. split; reflexivity. Qed.

(** ** Version information *)

Lemma g_missing (settings : list Build.Setting) (k : string) :
  (forall v, In v settings -> Build.Key v <> k) ->
  Build.g settings k = EmptyString.
Proof.
  induction settings as [|v rest IH]; intros H; [reflexivity|].
  cbn [Build.g]. destruct (String.eqb_spec (Build.Key v) k) as [E|_].
  - exfalso. apply (H v); [now left | exact E].
  - apply IH. intros v' Hv'. apply H. now right.
Qed.

Lemma g_first (pre : list Build.Setting) (v : Build.Setting)
  (rest : list Build.Setting) :
  (forall v', In v' pre -> Build.Key v' <> Build.Key v) ->
  Build.g (pre ++ v :: rest) (Build.Key v) = Build.Value v.
Proof.
  induction pre as [|x pre IH]; intros H; cbn [app Build.g].
  - now rewrite String.eqb_refl.
  - destruct (String.eqb_spec (Build.Key x) (Build.Key v)) as [E|_].
    + exfalso. apply (H x); [now left | exact E].
    + apply IH. intros v' Hv'. apply H. now right.
Qed.

Lemma optional_eqb (bi : Build.Info) (label k : string) :
  Build.optional bi label k =
  if String.eqb (Build.g (Build.Settings bi) k) EmptyString then []
  else [Build.println2 label (Build.g (Build.Settings bi) k)].
Proof.
  unfold Build.optional. now destruct (Build.g (Build.Settings bi) k).
Qed.

(** X12.  [version] prints the go line and the main line, then a commit,
    a time and a dirty line, in this order, each only when the build
    setting of its key has a value that is not empty.  A setting is
    looked up by key: a key that no setting has reads as the empty
    string and the first setting with the key wins.  So without the
    three settings the output is the two lines alone, a revision that
    is set makes the commit line the third line, and the output has
    between two and five lines. *)
Theorem version_settings_lookup (bi : Build.Info) :
  let look := Build.g (Build.Settings bi) in
  let line := fun label k =>
    if String.eqb (look k) EmptyString then []
    else [Build.println2 label (look k)] in
  let head := [Build.println2 "go     " (Build.GoVersion bi);
               Build.println2 "main   " (Build.MainVersion bi)] in
  Build.version bi =
    head ++ line "commit " "vcs.revision" ++ line "time   " "vcs.time"
         ++ line "dirty  " "vcs.modified" /\
  (forall k, (forall v, In v (Build.Settings bi) -> Build.Key v <> k) ->
             look k = EmptyString) /\
  (forall pre v rest,
     Build.Settings bi = pre ++ v :: rest ->
     (forall v', In v' pre -> Build.Key v' <> Build.Key v) ->
     look (Build.Key v) = Build.Value v) /\
  ((forall v, In v (Build.Settings bi) ->
              Build.Key v <> "vcs.revision" /\ Build.Key v <> "vcs.time" /\
              Build.Key v <> "vcs.modified") ->
   Build.version bi = head) /\
  (forall pre v rest,
     Build.Settings bi = pre ++ v :: rest ->
     Build.Key v = "vcs.revision" ->
     (forall v', In v' pre -> Build.Key v' <> "vcs.revision") ->
     Build.Value v <> EmptyString ->
     exists tail,
       Build.version bi =
       head ++ Build.println2 "commit " (Build.Value v) :: tail) /\
  (2 <= List.length (Build.version bi) <= 5)%nat.
Proof.
  intros look line head.
  assert (Hv : Build.version bi =
    head ++ line "commit " "vcs.revision" ++ line "time   " "vcs.time"
         ++ line "dirty  " "vcs.modified").
  { unfold Build.version. now rewrite !optional_eqb. }
  split; [exact Hv|]. split; [apply g_missing|]. split; [|split; [|split]].
  - intros pre v rest E H. unfold look. rewrite E. now apply g_first.
  - intros H. rewrite Hv. unfold line, look.
    rewrite !g_missing; [reflexivity | | |];
      intros v Hin; now destruct (H v Hin) as (? & ? & ?).
  - intros pre v rest E Hk Hpre Hval. rewrite Hv.
    assert (Hl : look "vcs.revision" = Build.Value v).
    { unfold look. rewrite E, <- Hk. apply g_first. now rewrite Hk. }
    unfold line at 1. rewrite Hl.
    destruct (String.eqb_spec (Build.Value v) EmptyString) as [|_];
      [contradiction|].
    eexists. reflexivity.
  - rewrite Hv. unfold line, head. rewrite !length_app.
    repeat match goal with
    | |- context [String.eqb ?a ?b] => destruct (String.eqb a b)
    end; cbn [List.length]; lia.
Qed.

(** ** Text mode and HTML mode side by side *)

Lemma framesLoop_modes (r : Report) (pp : ProgramPoint) (n : nat) :
  exists syms,
    fst (framesLoop r true pp n) = map (frameLine true) syms /\
    fst (framesLoop r false pp n) = map (frameLine false) syms /\
    snd (framesLoop r true pp n) = snd (framesLoop r false pp n).
Proof.
  induction n as [|j (syms & E1 & E2 & Eo)].
  - now exists [].
  - cbn [framesLoop].
    destruct (at_index (Frames pp) (Z.of_nat j)) as [idx|p]; cbn [lift].
    + rewrite !bind_ret.
      destruct (GetFrame r idx) as [sym|p]; cbn [lift].
      * rewrite !bind_ret, !bind_print. cbn [fst snd].
        exists (sym :: syms). cbn [map]. rewrite E1, E2. auto.
      * now exists [].
    + now exists [].
Qed.

Lemma written_modes (syms : list string) :
  map Html.EscapeString (map (written false) syms) = map (written true) syms.
Proof. rewrite map_map. reflexivity. Qed.

Lemma sitesLoop_modes (r : Report) (keywords : list string) :
  forall rest i c,
    snd (sitesLoop r keywords true i rest c)
      = snd (sitesLoop r keywords false i rest c) /\
    counters (fst (sitesLoop r keywords true i rest c))
      = counters (fst (sitesLoop r keywords false i rest c)) /\
    framesOf (fst (sitesLoop r keywords true i rest c))
      = map Html.EscapeString
            (framesOf (fst (sitesLoop r keywords false i rest c))).
Proof.
  induction rest as [|pp rest IH]; intros i c; [now cbn|].
  cbn [sitesLoop]. rewrite !siteBody_shape.
  destruct (shouldIgnore r (Z.of_nat i) keywords) as [[|]|p].
  - rewrite !bind_Done. cbn [fst snd app]. apply IH.
  - destruct (framesLoop_modes r pp (List.length (Frames pp)))
      as (syms & E1 & E2 & Eo).
    rewrite E1, E2, Eo.
    destruct (snd (framesLoop r false pp (List.length (Frames pp))))
      as [[]|f].
    + rewrite !bind_Done. cbn [fst snd].
      destruct (IH (S i) (c + 1)) as (Ho & Hc & Hf).
      split; [exact Ho|]. split.
      * rewrite !counters_app, !counters_frames, Hc. reflexivity.
      * rewrite !framesOf_app, !framesOf_frameLines, Hf.
        cbn [framesOf flat_map app].
        rewrite !app_nil_r, map_app, written_modes. reflexivity.
    + rewrite !bind_Failed. cbn [fst snd]. split; [reflexivity|]. split.
      * rewrite !counters_app, !counters_frames. reflexivity.
      * rewrite !framesOf_app, !framesOf_frameLines.
        cbn [framesOf flat_map app].
        rewrite !app_nil_r, written_modes. reflexivity.
  - rewrite !bind_Failed. now cbn.
Qed.

Lemma stripMarkup_app (a b : list event) :
  stripMarkup (a ++ b) = stripMarkup a ++ stripMarkup b.
Proof. apply flat_map_app. Qed.

Lemma escapeFrames_app (a b : list event) :
  escapeFrames (a ++ b) = escapeFrames a ++ escapeFrames b.
Proof. apply map_app. Qed.

Lemma stripMarkup_frames (syms : list string) :
  stripMarkup (map (frameLine true) syms)
  = escapeFrames (map (frameLine false) syms).
Proof.
  induction syms as [|s syms IH]; [reflexivity|].
  cbn [map]. change (stripMarkup (frameLine true s :: ?l))
    with (frameLine true s :: stripMarkup l).
  cbn [escapeFrames map] in *. now rewrite IH.
Qed.

Lemma sitesLoop_strip (r : Report) (keywords : list string) :
  forall rest i c,
    stripMarkup (fst (sitesLoop r keywords true i rest c))
    = escapeFrames (fst (sitesLoop r keywords false i rest c)).
Proof.
  induction rest as [|pp rest IH]; intros i c; [reflexivity|].
  cbn [sitesLoop]. rewrite !siteBody_shape.
  destruct (shouldIgnore r (Z.of_nat i) keywords) as [[|]|p].
  - rewrite !bind_Done. cbn [fst snd app]. apply IH.
  - destruct (framesLoop_modes r pp (List.length (Frames pp)))
      as (syms & E1 & E2 & Eo).
    rewrite E1, E2, Eo.
    destruct (snd (framesLoop r false pp (List.length (Frames pp))))
      as [[]|f].
    + rewrite !bind_Done. cbn [fst snd].
      rewrite !stripMarkup_app, !escapeFrames_app, stripMarkup_frames, IH.
      reflexivity.
    + rewrite !bind_Failed. cbn [fst snd].
      rewrite !stripMarkup_app, !escapeFrames_app, stripMarkup_frames.
      reflexivity.
  - rewrite !bind_Failed. reflexivity.
Qed.

(** X4.  The output mode changes the markup and nothing else: on any
    report the two modes end the same way (done, the same error, or the
    same panic), and the HTML output without its markup is, statement by
    statement, the text output with its frame lines escaped: the same
    Command, PID, Mode and t-end lines, the same sites under the same
    display counters with the same stats lines, the same frames. *)
Theorem modes_differ_in_markup_only (r : Report) (keywords : list string) :
  snd (render r keywords true) = snd (render r keywords false) /\
  stripMarkup (fst (render r keywords true))
    = escapeFrames (fst (render r keywords false)) /\
  counters (fst (render r keywords true))
    = counters (fst (render r keywords false)) /\
  framesOf (fst (render r keywords true))
    = map Html.EscapeString (framesOf (fst (render r keywords false))).
Proof.
  rewrite !render_shape.
  destruct (Version r =? dhatVersion); [|now cbn].
  destruct (sitesLoop_modes r keywords (ProgramPoints r) 0 1)
    as (Ho & Hc & Hf).
  pose proof (sitesLoop_strip r keywords (ProgramPoints r) 0 1) as Hs.
  cbn [fst snd]. rewrite Ho. split; [reflexivity|]. split; [|split].
  - rewrite !stripMarkup_app, !escapeFrames_app, Hs.
    destruct (snd (sitesLoop r keywords false 0 (ProgramPoints r) 1));
      reflexivity.
  - rewrite !counters_app, Hc.
    destruct (snd (sitesLoop r keywords false 0 (ProgramPoints r) 1));
      reflexivity.
  - rewrite !framesOf_app, Hf.
    destruct (snd (sitesLoop r keywords false 0 (ProgramPoints r) 1));
      cbn; rewrite ?app_nil_r; reflexivity.
Qed.
